(** * Address book (main.py): fields, records, the book and its birthday query

    A shallow embedding of [main.py] and of the parts of the Python
    runtime its behaviour depends on ([str.isdigit], [datetime.date],
    [datetime.strptime] and [strftime] for the format [%d.%m.%Y]). *)

From Stdlib Require Import String Ascii.
From Stdlib Require Import ZArith Lia Bool List.
From stdpp Require Import base list.
Import ListNotations.

Local Open Scope Z_scope.

(** ** Python strings

    A Python [str] is a sequence of Unicode code points; [len] counts code
    points.  A code point is an integer in [0 .. 0x10FFFF]. *)

Module PyStr.

Definition pystr := list Z.

(** The [str] made of the characters of an ASCII literal. *)
Definition str (s : string) : pystr :=
  map (fun a => Z.of_N (N_of_ascii a)) (list_ascii_of_string s).

Definition len (s : pystr) : Z := Z.of_nat (length s).

(** [s == t] on strings. *)
Definition eqb (s t : pystr) : bool := bool_decide (s = t).

(** Code points of the digit zero of every block of Unicode decimal digits
    (general category Nd, Unicode 14.0, the database of CPython 3.11).  Each
    block holds the ten digits 0..9 in order. *)
Definition unicode_Nd_zeros : list Z :=
  [48; 1632; 1776; 1984; 2406; 2534; 2662; 2790; 2918; 3046; 3174; 3302;
   3430; 3558; 3664; 3792; 3872; 4160; 4240; 6112; 6160; 6470; 6608; 6784;
   6800; 6992; 7088; 7232; 7248; 42528; 43216; 43264; 43472; 43504; 43600;
   44016; 65296; 66720; 68912; 69734; 69872; 69942; 70096; 70384; 70736;
   70864; 71248; 71360; 71472; 71904; 72016; 72784; 73040; 73120; 92768;
   92864; 93008; 120782; 120792; 120802; 120812; 120822; 123200; 123632;
   125264; 130032].

(** Ranges of the code points that have a digit value without being decimal
    digits (Numeric_Type=Digit: superscripts, subscripts, circled digits...). *)
Definition unicode_digit_only : list (Z * Z) :=
  [(178, 179); (185, 185); (4969, 4977); (6618, 6618); (8304, 8304);
   (8308, 8313); (8320, 8329); (9312, 9320); (9332, 9340); (9352, 9360);
   (9450, 9450); (9461, 9469); (9471, 9471); (10102, 10110); (10112, 10120);
   (10122, 10130); (68160, 68163); (69216, 69224); (69714, 69722);
   (127232, 127242)].

(** [Py_UNICODE_TODECIMAL]: the value of a decimal digit, [None] otherwise. *)
Fixpoint decimal_in (zeros : list Z) (c : Z) : option Z :=
  match zeros with
  | [] => None
  | z :: zeros' =>
      if (z <=? c) && (c <? z + 10) then Some (c - z) else decimal_in zeros' c
  end.

Definition to_decimal (c : Z) : option Z := decimal_in unicode_Nd_zeros c.

Definition isdecimal_char (c : Z) : bool :=
  match to_decimal c with Some _ => true | None => false end.

(** [Py_UNICODE_ISDIGIT]: decimal digits and the digit-only code points. *)
Definition isdigit_char (c : Z) : bool :=
  isdecimal_char c
  || existsb (fun r => (fst r <=? c) && (c <=? snd r)) unicode_digit_only.

(** [str.isdigit()]: true when the string is not empty and all its
    characters are digits. *)
Definition isdigit (s : pystr) : bool :=
  match s with
  | [] => false
  | _ => forallb isdigit_char s
  end.

(** The ASCII digits ['0'..'9']. *)
Definition ascii_digit (c : Z) : bool := (48 <=? c) && (c <=? 57).

(** [int(s)] for the text of a group matched by the regular expressions of
    [strptime]: leading blanks are skipped, then every character is a decimal
    digit.  [None] stands for the [ValueError] of [int]. *)
Fixpoint int_digits (acc : Z) (s : pystr) : option Z :=
  match s with
  | [] => Some acc
  | c :: s' =>
      match to_decimal c with
      | Some v => int_digits (10 * acc + v) s'
      | None => None
      end
  end.

Fixpoint lstrip_blank (s : pystr) : pystr :=
  match s with
  | 32 :: s' => lstrip_blank s'
  | _ => s
  end.

Definition int (s : pystr) : option Z :=
  match lstrip_blank s with
  | [] => None
  | t => int_digits 0 t
  end.

(** Decimal rendering as done by the C formatting of [strftime]: [width]
    digits, zero filled, for a number that fits. *)
Fixpoint zero_padded (width : nat) (n : Z) : pystr :=
  match width with
  | O => []
  | S w => zero_padded w (n / 10) ++ [48 + n mod 10]
  end.

(** Number of decimal digits of a positive number below 10000. *)
Definition digits_count (n : Z) : nat :=
  if n <? 10 then 1%nat else if n <? 100 then 2%nat
  else if n <? 1000 then 3%nat else 4%nat.

End PyStr.
Export PyStr.

(** ** Exceptions

    The text of a [ValueError] is kept as a term: one constructor per message
    of the program and of the library calls it makes. *)

Inductive message : Type :=
  | PhoneMustContain10Digits
      (* "The phone number must contain 10 digits" *)
  | DateOfBirthInFuture
      (* "The date of birth cannot be greater than the current one." *)
  | InvalidDate (e : message)
      (* f"Invalid date: {e}. Use DD.MM.YYYY" *)
  | PhoneNotFound (old_phone : pystr)
      (* f"Phone {old_phone} not found" *)
  | TimeDataDoesNotMatchFormat (data : pystr)
      (* strptime: "time data %r does not match format %r" *)
  | UnconvertedDataRemains (rest : pystr)
      (* strptime: "unconverted data remains: %s" *)
  | YearOutOfRange (y : Z)
      (* date: "year %i is out of range" *)
  | MonthOutOfRange
      (* date: "month must be in 1..12" *)
  | DayOutOfRange
      (* date: "day is out of range for month" *)
  | InvalidLiteralForInt (s : pystr).
      (* int: "invalid literal for int() with base 10: %r" *)

Inductive exn : Type :=
  | ValueError (msg : message)
  | OverflowError.

Inductive result (A : Type) : Type :=
  | Ok (a : A)
  | Raise (e : exn).
Arguments Ok {A} a.
Arguments Raise {A} e.

Definition rbind {A B} (r : result A) (k : A -> result B) : result B :=
  match r with
  | Ok a => k a
  | Raise e => Raise e
  end.

#[global] Instance result_ret : MRet result := @Ok.
#[global] Instance result_bind : MBind result := fun A B k r => rbind r k.

(** ** [datetime.date]

    The proleptic Gregorian calendar of [Lib/datetime.py]: a date is a
    triple of fields; ordinals count days from 0001-01-01 = 1. *)

Module Date.

Record date : Type := mkdate { year : Z; month : Z; day : Z }.

Definition MINYEAR : Z := 1.
Definition MAXYEAR : Z := 9999.
Definition _MAXORDINAL : Z := 3652059.

Definition _DAYS_IN_MONTH : list Z :=
  [-1; 31; 28; 31; 30; 31; 30; 31; 31; 30; 31; 30; 31].

Definition _DAYS_BEFORE_MONTH : list Z :=
  [-1; 0; 31; 59; 90; 120; 151; 181; 212; 243; 273; 304; 334].

(** [table[i]] for an index that is in range wherever it is used. *)
Definition item (table : list Z) (i : Z) : Z := nth (Z.to_nat i) table 0.

Definition _is_leap (y : Z) : bool :=
  (y mod 4 =? 0) && (negb (y mod 100 =? 0) || (y mod 400 =? 0)).

Definition _days_before_year (y : Z) : Z :=
  let y := y - 1 in
  y * 365 + y / 4 - y / 100 + y / 400.

Definition _days_in_month (y m : Z) : Z :=
  if (m =? 2) && _is_leap y then 29 else item _DAYS_IN_MONTH m.

Definition _days_before_month (y m : Z) : Z :=
  item _DAYS_BEFORE_MONTH m + (if (2 <? m) && _is_leap y then 1 else 0).

Definition _ymd2ord (y m d : Z) : Z :=
  _days_before_year y + _days_before_month y m + d.

Definition _DI400Y : Z := 146097.
Definition _DI100Y : Z := 36524.
Definition _DI4Y : Z := 1461.

Definition _ord2ymd (n : Z) : Z * Z * Z :=
  let n := n - 1 in
  let n400 := n / _DI400Y in
  let n := n mod _DI400Y in
  let year := n400 * 400 + 1 in
  let n100 := n / _DI100Y in
  let n := n mod _DI100Y in
  let n4 := n / _DI4Y in
  let n := n mod _DI4Y in
  let n1 := n / 365 in
  let n := n mod 365 in
  let year := year + n100 * 100 + n4 * 4 + n1 in
  if (n1 =? 4) || (n100 =? 4) then (year - 1, 12, 31)
  else
    let leapyear := (n1 =? 3) && (negb (n4 =? 24) || (n100 =? 3)) in
    let month := Z.shiftr (n + 50) 5 in
    let preceding :=
      item _DAYS_BEFORE_MONTH month
      + (if (2 <? month) && leapyear then 1 else 0) in
    let '(month, preceding) :=
      if n <? preceding
      then (month - 1,
            preceding - (item _DAYS_IN_MONTH (month - 1)
                         + (if (month - 1 =? 2) && leapyear then 1 else 0)))
      else (month, preceding) in
    (year, month, n - preceding + 1).

(** [_check_date_fields], run by the constructor [date(year, month, day)]. *)
Definition new (y m d : Z) : result date :=
  if negb ((MINYEAR <=? y) && (y <=? MAXYEAR))
  then Raise (ValueError (YearOutOfRange y))
  else if negb ((1 <=? m) && (m <=? 12))
  then Raise (ValueError MonthOutOfRange)
  else if negb ((1 <=? d) && (d <=? _days_in_month y m))
  then Raise (ValueError DayOutOfRange)
  else Ok (mkdate y m d).

(** The invariant of every [date] object. *)
Definition valid (d : date) : Prop :=
  MINYEAR <= year d <= MAXYEAR /\ 1 <= month d <= 12
  /\ 1 <= day d <= _days_in_month (year d) (month d).

Definition toordinal (d : date) : Z := _ymd2ord (year d) (month d) (day d).

Definition fromordinal (n : Z) : date :=
  let '(y, m, d) := _ord2ymd n in mkdate y m d.

(** Monday is 0, Sunday is 6. *)
Definition weekday (d : date) : Z := (toordinal d + 6) mod 7.

(** [d.replace(year=y)]. *)
Definition replace_year (d : date) (y : Z) : result date :=
  new y (month d) (day d).

(** Comparison of the field triples, as [date.__lt__] and [date.__gt__]. *)
Definition ltb (a b : date) : bool :=
  (year a <? year b)
  || ((year a =? year b)
      && ((month a <? month b)
          || ((month a =? month b) && (day a <? day b)))).

Definition gtb (a b : date) : bool := ltb b a.

(** [(a - b).days]. *)
Definition sub_days (a b : date) : Z := toordinal a - toordinal b.

(** [d + timedelta(days=n)]. *)
Definition add_days (d : date) (n : Z) : result date :=
  let o := toordinal d + n in
  if (0 <? o) && (o <=? _MAXORDINAL) then Ok (fromordinal o)
  else Raise OverflowError.

End Date.
Import Date.

(** ** [datetime.strptime(value, "%d.%m.%Y")] and [strftime("%d.%m.%Y")]

    [_strptime] turns the format into a regular expression, matches it at
    the start of the data (with backtracking, first alternative first),
    refuses data left over after the match, converts the groups with [int]
    and builds the date.  The regular expressions are those of
    [_strptime.TimeRE]. *)

Module Strptime.

Inductive regex : Type :=
  | Lit (c : Z)                (* a literal character *)
  | Range (lo hi : Z)          (* [lo-hi] *)
  | UniDigit                   (* \d : any Unicode decimal digit *)
  | Cat (r1 r2 : regex)        (* r1 r2 *)
  | Alt (r1 r2 : regex).       (* r1|r2 *)

(** All the ways [r] matches a prefix of [s], in the order the backtracking
    matcher tries them: each is the matched text and what follows it. *)
Fixpoint matches (r : regex) (s : pystr) : list (pystr * pystr) :=
  match r with
  | Lit c =>
      match s with
      | x :: s' => if x =? c then [([x], s')] else []
      | [] => []
      end
  | Range lo hi =>
      match s with
      | x :: s' => if (lo <=? x) && (x <=? hi) then [([x], s')] else []
      | [] => []
      end
  | UniDigit =>
      match s with
      | x :: s' => if isdecimal_char x then [([x], s')] else []
      | [] => []
      end
  | Cat r1 r2 =>
      flat_map (fun m1 =>
        map (fun m2 => (fst m1 ++ fst m2, snd m2)) (matches r2 (snd m1)))
        (matches r1 s)
  | Alt r1 r2 => matches r1 s ++ matches r2 s
  end.

Definition chr (a : ascii) : Z := Z.of_N (N_of_ascii a).

(** ['d': r"(?P<d>3[0-1]|[1-2]\d|0[1-9]|[1-9]| [1-9])"] *)
Definition re_d : regex :=
  Alt (Cat (Lit (chr "3")) (Range (chr "0") (chr "1")))
 (Alt (Cat (Range (chr "1") (chr "2")) UniDigit)
 (Alt (Cat (Lit (chr "0")) (Range (chr "1") (chr "9")))
 (Alt (Range (chr "1") (chr "9"))
      (Cat (Lit (chr " ")) (Range (chr "1") (chr "9")))))).

(** ['m': r"(?P<m>1[0-2]|0[1-9]|[1-9])"] *)
Definition re_m : regex :=
  Alt (Cat (Lit (chr "1")) (Range (chr "0") (chr "2")))
 (Alt (Cat (Lit (chr "0")) (Range (chr "1") (chr "9")))
      (Range (chr "1") (chr "9"))).

(** ['Y': r"(?P<Y>\d\d\d\d)"] *)
Definition re_Y : regex :=
  Cat UniDigit (Cat UniDigit (Cat UniDigit UniDigit)).

Definition re_dot : regex := Lit (chr ".").

(** The matches of the whole pattern [%d\.%m\.%Y]: the three groups and the
    unconverted rest, in backtracking order. *)
Definition format_matches (s : pystr) : list (pystr * pystr * pystr * pystr) :=
  flat_map (fun md =>
  flat_map (fun m1 =>
  flat_map (fun mm =>
  flat_map (fun m2 =>
  map (fun mY => (fst md, fst mm, fst mY, snd mY))
      (matches re_Y (snd m2)))
      (matches re_dot (snd mm)))
      (matches re_m (snd m1)))
      (matches re_dot (snd md)))
      (matches re_d s).

Definition int_group (s : pystr) : result Z :=
  match int s with
  | Some n => Ok n
  | None => Raise (ValueError (InvalidLiteralForInt s))
  end.

(** [datetime.strptime(data_string, "%d.%m.%Y").date()] *)
Definition strptime (data_string : pystr) : result date :=
  match format_matches data_string with
  | [] => Raise (ValueError (TimeDataDoesNotMatchFormat data_string))
  | (d, m, Y, rest) :: _ =>
      match rest with
      | _ :: _ => Raise (ValueError (UnconvertedDataRemains rest))
      | [] =>
          year ← int_group Y;
          month ← int_group m;
          day ← int_group d;
          Date.new year month day
      end
  end.

(** [%d] and [%m] are always two digits.  [%Y] is left to the C library:
    glibc prints the year without padding (year 999 gives ["999"]), other
    libraries zero-fill to four digits; [pads_year] tells which. *)
Definition strftime_Y (pads_year : bool) (y : Z) : pystr :=
  if pads_year then zero_padded 4 y else zero_padded (digits_count y) y.

(** [d.strftime("%d.%m.%Y")] *)
Definition strftime (pads_year : bool) (d : date) : pystr :=
  zero_padded 2 (day d) ++ [chr "."] ++ zero_padded 2 (month d)
  ++ [chr "."] ++ strftime_Y pads_year (year d).

End Strptime.
Import Strptime.

(** ** The environment of a run: the clock read by [date.today()] and the
    C library behind [strftime]. *)

Record env : Type := mkenv { today : date; libc_pads_year : bool }.

(** ** Fields *)

(** [Phone.__init__]: the [value] of the new [Phone], or the exception. *)
Definition Phone (value : pystr) : result pystr :=
  if negb (len value =? 10) || negb (isdigit value)
  then Raise (ValueError PhoneMustContain10Digits)
  else Ok value.

(** The body of the [try] of [Birthday.__init__]. *)
Definition Birthday_try (E : env) (value : pystr) : result pystr :=
  birthday ← strptime value;
  if Date.gtb birthday (today E)
  then Raise (ValueError DateOfBirthInFuture)
  else Ok (strftime (libc_pads_year E) birthday).

(** [Birthday.__init__]: the [value] of the new [Birthday]; every
    [ValueError] of the body is raised again inside a new message. *)
Definition Birthday (E : env) (value : pystr) : result pystr :=
  match Birthday_try E value with
  | Raise (ValueError e) => Raise (ValueError (InvalidDate e))
  | r => r
  end.

(** ** Records

    The methods of [Record] change the object they are called on, and what
    they changed stays changed when they raise: a method is a function from
    the state of [self] to an outcome and the state of [self] afterwards.

    [phones] holds the [value] of each [Phone] of the list, in order.  Every
    [Phone] of the list is an object of its own ([add_phone] is the only
    place that adds one, and it creates it), so a position of the list names
    one object. *)

Record Record_ : Type := mkRecord {
  name : pystr;
  phones : list pystr;
  birthday : option pystr
}.

Definition method (A : Type) : Type := Record_ -> result A * Record_.

Definition m_ret {A} (a : A) : method A := fun self => (Ok a, self).
Definition m_raise {A} (e : exn) : method A := fun self => (Raise e, self).
Definition m_bind {A B} (m : method A) (k : A -> method B) : method B :=
  fun self =>
    match m self with
    | (Ok a, self') => k a self'
    | (Raise e, self') => (Raise e, self')
    end.
Definition lift {A} (r : result A) : method A := fun self => (r, self).
Definition get_self : method Record_ := fun self => (Ok self, self).
Definition set_phones (ps : list pystr) : method unit :=
  fun self => (Ok tt, mkRecord (name self) ps (birthday self)).
Definition set_birthday (b : option pystr) : method unit :=
  fun self => (Ok tt, mkRecord (name self) (phones self) b).

#[global] Instance method_ret : MRet method := @m_ret.
#[global] Instance method_bind : MBind method := fun A B k m => m_bind m k.

(** [Record.__init__] *)
Definition Record_init (name : pystr) : Record_ := mkRecord name [] None.

(** [add_phone]: [self.phones.append(Phone(phone))] *)
Definition add_phone (phone : pystr) : method unit :=
  p ← lift (Phone phone);
  self ← get_self;
  set_phones (phones self ++ [p]).

(** The loop of [remove_phone].  A [for] over a list keeps a cursor [i] into
    the list as it is at each step: it stops when [i] is past the end, else
    takes the item at [i] and moves the cursor on.  [self.phones.remove(p)]
    deletes the first item that is the object [p], the one at the cursor.
    [fuel] bounds the number of steps. *)
Fixpoint remove_phone_loop (fuel : nat) (phone : pystr)
    (i : nat) (ps : list pystr) : list pystr :=
  match fuel with
  | O => ps
  | S fuel' =>
      match ps !! i with
      | None => ps
      | Some p =>
          if eqb p phone
          then remove_phone_loop fuel' phone (S i) (delete i ps)
          else remove_phone_loop fuel' phone (S i) ps
      end
  end.

(** [remove_phone]; the loop takes at most one step per item. *)
Definition remove_phone (phone : pystr) : method unit :=
  self ← get_self;
  set_phones (remove_phone_loop (length (phones self)) phone 0 (phones self)).

(** The loop of [edit_phone]: the list with the first item whose value is
    [old_phone] given the new value, or [None] when the loop ends without a
    [return]. *)
Fixpoint edit_phone_loop (old_phone new_value : pystr) (ps : list pystr)
    : option (list pystr) :=
  match ps with
  | [] => None
  | p :: ps' =>
      if eqb p old_phone then Some (new_value :: ps')
      else cons p <$> edit_phone_loop old_phone new_value ps'
  end.

(** [edit_phone] *)
Definition edit_phone (old_phone new_phone : pystr) : method unit :=
  new_phone_obj ← lift (Phone new_phone);
  self ← get_self;
  match edit_phone_loop old_phone new_phone_obj (phones self) with
  | Some ps => set_phones ps
  | None => m_raise (ValueError (PhoneNotFound old_phone))
  end.

(** [add_birthday] *)
Definition add_birthday (E : env) (b : pystr) : method unit :=
  v ← lift (Birthday E b);
  set_birthday (Some v).

(** ** The address book

    [data] is a [dict]: it keeps its keys in the order they were first
    inserted, and assigning to a key that is present replaces the value in
    place. *)

Module Dict.
Section Dict.
Context {V : Type}.
Definition dict := list (pystr * V).

Fixpoint setitem (k : pystr) (v : V) (d : dict) : dict :=
  match d with
  | [] => [(k, v)]
  | (k', v') :: d' =>
      if eqb k' k then (k', v) :: d' else (k', v') :: setitem k v d'
  end.

Fixpoint get (k : pystr) (d : dict) : option V :=
  match d with
  | [] => None
  | (k', v') :: d' => if eqb k' k then Some v' else get k d'
  end.

Fixpoint delitem (k : pystr) (d : dict) : dict :=
  match d with
  | [] => []
  | (k', v') :: d' => if eqb k' k then d' else (k', v') :: delitem k d'
  end.

Definition contains (k : pystr) (d : dict) : bool :=
  match get k d with Some _ => true | None => false end.

Definition values (d : dict) : list V := map snd d.
Definition keys (d : dict) : list pystr := map fst d.
End Dict.
Arguments dict V : clear implicits.
End Dict.

Module AddressBook.

Record t : Type := mk { data : Dict.dict Record_ }.

Definition add_record (book : t) (record : Record_) : t :=
  mk (Dict.setitem (name record) record (data book)).

Definition find (book : t) (name : pystr) : option Record_ :=
  Dict.get name (data book).

Definition delete (book : t) (name : pystr) : t :=
  if Dict.contains name (data book)
  then mk (Dict.delitem name (data book))
  else book.

Definition date_to_string (E : env) (d : date) : pystr :=
  strftime (libc_pads_year E) d.

Definition find_next_weekday (start_date : date) (weekday : Z) : result date :=
  let days_ahead := weekday - Date.weekday start_date in
  let days_ahead := if days_ahead <=? 0 then days_ahead + 7 else days_ahead in
  Date.add_days start_date days_ahead.

Definition adjust_for_weekend (birthday : date) : result date :=
  if 5 <=? Date.weekday birthday
  then find_next_weekday birthday 0
  else Ok birthday.

(** An entry of the result: [{"name": ..., "congratulation_date": ...}]. *)
Record entry : Type := mkEntry { entry_name : pystr; congratulation_date : pystr }.

(** One turn of the loop of [get_upcoming_birthdays]: the list of entries
    after the turn. *)
Definition upcoming_step (E : env) (days : Z) (upcoming_birthdays : list entry)
    (record : Record_) : result (list entry) :=
  match birthday record with
  | None => Ok upcoming_birthdays
  | Some value =>
      birthday_date ← strptime value;
      birthday_this_year ← Date.replace_year birthday_date (year (today E));
      birthday_this_year ←
        (if Date.ltb birthday_this_year (today E)
         then Date.replace_year birthday_this_year (year (today E) + 1)
         else Ok birthday_this_year);
      let delta := Date.sub_days birthday_this_year (today E) in
      if (0 <=? delta) && (delta <=? days)
      then
        birthday_this_year ← adjust_for_weekend birthday_this_year;
        let congratulation_date_str := date_to_string E birthday_this_year in
        Ok (upcoming_birthdays
              ++ [mkEntry (name record) congratulation_date_str])
      else Ok upcoming_birthdays
  end.

Fixpoint upcoming_loop (E : env) (days : Z) (upcoming_birthdays : list entry)
    (records : list Record_) : result (list entry) :=
  match records with
  | [] => Ok upcoming_birthdays
  | record :: records' =>
      upcoming_birthdays ← upcoming_step E days upcoming_birthdays record;
      upcoming_loop E days upcoming_birthdays records'
  end.

Definition get_upcoming_birthdays (E : env) (book : t) (days : Z)
    : result (list entry) :=
  upcoming_loop E days [] (Dict.values (data book)).

End AddressBook.

(** ** The scenario of the specification: today is Monday 2024-06-10. *)

Definition scenario_env (pads_year : bool) : env :=
  mkenv (mkdate 2024 6 10) pads_year.

(** [Record(n)] followed by [add_birthday(b)]: the outcome and the record. *)
Definition new_contact (E : env) (n b : string) : result unit * Record_ :=
  add_birthday E (str b) (Record_init (str n)).

Definition scenario_book (E : env) : AddressBook.t :=
  AddressBook.add_record
    (AddressBook.add_record (AddressBook.mk [])
       (snd (new_contact E "Ann" "08.06.1990")))
    (snd (new_contact E "Bob" "15.06.1985")).

(** The strict textual form [DD.MM.YYYY] of a date: two digits, a dot, two
    digits, a dot, four digits, all zero filled. *)
Definition render (d : date) : pystr :=
  zero_padded 2 (day d) ++ [46] ++ zero_padded 2 (month d) ++ [46]
  ++ zero_padded 4 (year d).


(** Ten times SUPERSCRIPT TWO (U+00B2). *)
Definition superscript_twos : pystr := replicate 10 178.

(** ** Rendering records and the book *)

(** [sep.join(parts)] *)
Fixpoint join (sep : pystr) (parts : list pystr) : pystr :=
  match parts with
  | [] => []
  | [p] => p
  | p :: ps => p ++ sep ++ join sep ps
  end.

(** [Record.__str__] *)
Definition Record_str (self : Record_) : pystr :=
  let phones := join (str "; ") (phones self) in
  let birthday :=
    match birthday self with
    | Some value => str ", birthday: " ++ value
    | None => []
    end in
  str "Contact name: " ++ name self ++ str ", phones: " ++ phones ++ birthday.

(** [AddressBook.__str__] *)
Definition AddressBook_str (self : AddressBook.t) : pystr :=
  match AddressBook.data self with
  | [] => str "AddressBook is empty"
  | _ => join [10] (map Record_str (Dict.values (AddressBook.data self)))
  end.

(** ** The command handlers

    A handler gets the arguments of a command and the book, and returns a
    string.  What it does to the book stays done when it raises.  The
    decorator [input_error] turns [ValueError], [KeyError] and [IndexError]
    into the string that is returned in their place. *)

Module Handlers.

(** The strings a handler returns: a text, or [str(e)] for a [ValueError]. *)
Inductive reply : Type :=
  | Text (s : pystr)
  | ErrorText (m : message)
      (* str(e) for a ValueError raised by a field or a record *)
  | TooManyValues (expected : nat).
      (* str(e): "too many values to unpack (expected n)" *)

Inductive raised : Type :=
  | RaisedValueError (text : reply)
  | RaisedKeyError
  | RaisedIndexError
  | RaisedOverflowError.

Inductive outcome : Type :=
  | Return (r : reply)
  | Throw (e : raised).

Definition handler : Type := AddressBook.t -> outcome * AddressBook.t.

Definition of_exn (e : exn) : raised :=
  match e with
  | ValueError m => RaisedValueError (ErrorText m)
  | OverflowError => RaisedOverflowError
  end.

(** [input_error(func)] *)
Definition input_error (func : handler) : handler :=
  fun book =>
    match func book with
    | (Throw (RaisedValueError text), book') => (Return text, book')
    | (Throw RaisedKeyError, book') =>
        (Return (Text (str "Contact not found")), book')
    | (Throw RaisedIndexError, book') =>
        (Return (Text (str "Not enough argument for the command")), book')
    | other => other
    end.

(** A call [record.m(...)] where [record] is the object that the book
    holds under [name]: the book and the caller share the object, so the
    book holds the record as the call leaves it. *)
Definition call_method {A} (book : AddressBook.t) (name : pystr)
    (record : Record_) (m : method A) : result A * AddressBook.t :=
  let '(r, record') := m record in
  (r, AddressBook.mk (Dict.setitem name record' (AddressBook.data book))).

(** The body of [add_contact].  [len(args) < 2] and the unpacking
    [name, phone, *_ = args] are the match on [args]. *)
Definition add_contact_func (args : list pystr) : handler :=
  fun book =>
    match args with
    | name :: phone :: _ =>
        let '(record, book, message) :=
          match AddressBook.find book name with
          | Some record => (record, book, str "Contact updated.")
          | None =>
              (Record_init name,
               AddressBook.add_record book (Record_init name),
               str "Contact added.")
          end in
        match call_method book name record (add_phone phone) with
        | (Ok _, book) => (Return (Text message), book)
        | (Raise e, book) => (Throw (of_exn e), book)
        end
    | _ =>
        (Throw (RaisedValueError
                  (Text (str "Please provide both a name and a phone number."))),
         book)
    end.

Definition add_contact (args : list pystr) : handler :=
  input_error (add_contact_func args).

(** The body of [change_contact]: with more than three arguments the
    unpacking [name, old_phone, new_phone = args] raises [ValueError]. *)
Definition change_contact_func (args : list pystr) : handler :=
  fun book =>
    match args with
    | [name; old_phone; new_phone] =>
        match AddressBook.find book name with
        | None => (Throw RaisedKeyError, book)
        | Some record =>
            match call_method book name record
                    (edit_phone old_phone new_phone) with
            | (Ok _, book) => (Return (Text (str "Contact phone updated.")), book)
            | (Raise e, book) => (Throw (of_exn e), book)
            end
        end
    | _ :: _ :: _ :: _ :: _ =>
        (Throw (RaisedValueError (TooManyValues 3)), book)
    | _ =>
        (Throw (RaisedValueError
                  (Text (str "Please provide your name, old and new phone numbers."))),
         book)
    end.

Definition change_contact (args : list pystr) : handler :=
  input_error (change_contact_func args).

(** The body of [show_phone]: [args[0]] raises [IndexError] on no argument. *)
Definition show_phone_func (args : list pystr) : handler :=
  fun book =>
    match args with
    | [] => (Throw RaisedIndexError, book)
    | name :: _ =>
        match AddressBook.find book name with
        | Some record =>
            (Return (Text (name ++ str ": " ++ join (str "; ") (phones record))),
             book)
        | None => (Return (Text (str "Contact not found")), book)
        end
    end.

Definition show_phone (args : list pystr) : handler :=
  input_error (show_phone_func args).

(** [show_all] *)
Definition show_all (book : AddressBook.t) : pystr := AddressBook_str book.

(** The body of the handler [add_birthday]. *)
Definition add_birthday_func (E : env) (args : list pystr) : handler :=
  fun book =>
    match args with
    | [name; birthday] =>
        match AddressBook.find book name with
        | None => (Throw RaisedKeyError, book)
        | Some record =>
            match call_method book name record (add_birthday E birthday) with
            | (Ok _, book) => (Return (Text (str "Birthday added.")), book)
            | (Raise e, book) => (Throw (of_exn e), book)
            end
        end
    | _ :: _ :: _ :: _ =>
        (Throw (RaisedValueError (TooManyValues 2)), book)
    | _ =>
        (Throw (RaisedValueError
                  (Text (str "Please provide both a name and birthday date."))),
         book)
    end.

Definition add_birthday (E : env) (args : list pystr) : handler :=
  input_error (add_birthday_func E args).

(** The body of [show_birthday]. *)
Definition show_birthday_func (args : list pystr) : handler :=
  fun book =>
    match args with
    | [] => (Throw RaisedIndexError, book)
    | name :: _ =>
        match AddressBook.find book name with
        | Some (mkRecord _ _ (Some value)) =>
            (Return (Text (name ++ str "'s birthday: " ++ value)), book)
        | _ => (Return (Text (str "Birthday not found")), book)
        end
    end.

Definition show_birthday (args : list pystr) : handler :=
  input_error (show_birthday_func args).

(** The body of [birthdays]: the query with its default window of 7 days. *)
Definition birthdays_func (E : env) : handler :=
  fun book =>
    match AddressBook.get_upcoming_birthdays E book 7 with
    | Ok upcoming_birthdays =>
        (Return (Text (join [10]
           (map (fun entry =>
                   AddressBook.entry_name entry ++ str ": "
                   ++ AddressBook.congratulation_date entry)
                upcoming_birthdays))),
         book)
    | Raise e => (Throw (of_exn e), book)
    end.

Definition birthdays (E : env) : handler := input_error (birthdays_func E).

End Handlers.

(** ** Definitions used to state and prove the properties *)

(** Days in a month and days before it, from the leap flag of the year. *)
Definition dim_l (l : bool) (m : Z) : Z :=
  if (m =? 2) && l then 29 else item _DAYS_IN_MONTH m.

Definition dbm_l (l : bool) (m : Z) : Z :=
  item _DAYS_BEFORE_MONTH m + (if (2 <? m) && l then 1 else 0).

Definition leap_day (l : bool) : Z := if l then 1 else 0.

(** The month and the day of the [n]-th day (from 0) of a year, as
    [_ord2ymd] finds them. *)
Definition ord2md (leapyear : bool) (n : Z) : Z * Z :=
  let month := Z.shiftr (n + 50) 5 in
  let preceding :=
    item _DAYS_BEFORE_MONTH month
    + (if (2 <? month) && leapyear then 1 else 0) in
  let '(month, preceding) :=
    if n <? preceding
    then (month - 1,
          preceding - (item _DAYS_IN_MONTH (month - 1)
                       + (if (month - 1 =? 2) && leapyear then 1 else 0)))
    else (month, preceding) in
  (month, n - preceding + 1).

Definition ord2md_ok (leapyear : bool) (n : Z) : bool :=
  let '(m, d) := ord2md leapyear n in
  (1 <=? m) && (m <=? 12) && (1 <=? d) && (d <=? dim_l leapyear m)
  && (dbm_l leapyear m + d =? n + 1).

(** The text of a day or of a month: zero filled to two digits, or not
    filled. *)
Definition group_text (short : bool) (n : Z) : pystr :=
  if short then zero_padded (digits_count n) n else zero_padded 2 n.

(** The text of a date in either form. *)
Definition date_text (short : bool) (d : date) : pystr :=
  group_text short (day d) ++ [46] ++ group_text short (month d) ++ [46]
  ++ zero_padded 4 (year d).

(** What the loop of [remove_phone] makes of the part of the list from the
    cursor on: an entry equal to [phone] is removed, and the entry after it,
    which takes its place under the cursor, is stepped over and stays. *)
Fixpoint remove_skipping (phone : pystr) (ps : list pystr) : list pystr :=
  match ps with
  | [] => []
  | p :: ps' =>
      if eqb p phone
      then match ps' with
           | [] => []
           | q :: ps'' => q :: remove_skipping phone ps''
           end
      else p :: remove_skipping phone ps'
  end.

(** A record with the same number three times, as three calls of
    [add_phone] leave it. *)
Definition triple_phone : pystr := str "0501234567".
Definition triple_record : Record_ :=
  mkRecord (str "Ann") [triple_phone; triple_phone; triple_phone] None.

(** A year that is not a leap year, and a book with a contact born on a
    29th of February. *)
Definition feb29_env : env := mkenv (mkdate 2023 6 10) false.
Definition feb29_record : Record_ :=
  snd (new_contact feb29_env "Eve" "29.02.2020").
Definition feb29_book : AddressBook.t :=
  AddressBook.add_record (scenario_book feb29_env) feb29_record.

(** A book where Ann is stored, and a second record for Ann. *)
Definition ann_old : Record_ :=
  mkRecord (str "Ann") [str "0501234567"] (Some (str "08.06.1990")).
Definition ann_new : Record_ :=
  mkRecord (str "Ann") [str "0670000000"] None.
Definition ann_book : AddressBook.t :=
  AddressBook.add_record (AddressBook.mk []) ann_old.

(** The records that have a birthday. *)
Definition has_birthday (r : Record_) : Prop := birthday r <> None.

#[global] Instance has_birthday_dec (r : Record_) : Decision (has_birthday r).
Proof. unfold has_birthday. apply _. Defined.

(** The least and the greatest length of a text that a regular expression
    matches, and whether no text it matches holds the character [c]. *)
Fixpoint regex_min (r : regex) : nat :=
  match r with
  | Lit _ | Range _ _ | UniDigit => 1
  | Cat r1 r2 => regex_min r1 + regex_min r2
  | Alt r1 r2 => Nat.min (regex_min r1) (regex_min r2)
  end.

Fixpoint regex_max (r : regex) : nat :=
  match r with
  | Lit _ | Range _ _ | UniDigit => 1
  | Cat r1 r2 => regex_max r1 + regex_max r2
  | Alt r1 r2 => Nat.max (regex_max r1) (regex_max r2)
  end.

Fixpoint regex_avoids (c : Z) (r : regex) : bool :=
  match r with
  | Lit c' => negb (c =? c')
  | Range lo hi => negb ((lo <=? c) && (c <=? hi))
  | UniDigit => negb (isdecimal_char c)
  | Cat r1 r2 | Alt r1 r2 => regex_avoids c r1 && regex_avoids c r2
  end.

(** Records with one and with two phones. *)
Definition one_phone_record : Record_ :=
  mkRecord (str "Ann") [str "0501234567"] None.
Definition two_phone_record : Record_ :=
  mkRecord (str "Ann") [str "0931111111"; str "0501234567"] None.

(** * Properties *)

(** ** Phone numbers *)

Lemma ascii_digit_isdigit c : ascii_digit c = true -> isdigit_char c = true.
Proof.
  unfold ascii_digit. intros H.
  apply andb_true_iff in H as [H1 H2].
  apply Z.leb_le in H1. apply Z.leb_le in H2.
  unfold isdigit_char, isdecimal_char, to_decimal.
  cbn [unicode_Nd_zeros decimal_in].
  replace (48 <=? c) with true by (symmetry; apply Z.leb_le; lia).
  replace (c <? 48 + 10) with true by (symmetry; apply Z.ltb_lt; lia).
  reflexivity.
Qed.

Lemma isdigit_forall (s : pystr) :
  isdigit s = true <-> s <> [] /\ Forall (fun c => isdigit_char c = true) s.
Proof.
  unfold isdigit. destruct s as [|c s].
  - split; [discriminate | intros [H _]; congruence].
  - rewrite forallb_forall, Forall_forall. split.
    + intros H. split; [discriminate|]. intros x Hx. apply H.
      now apply list_elem_of_In.
    + intros [_ H] x Hx. apply H. now apply list_elem_of_In.
Qed.

Lemma Phone_cases (s : pystr) :
  Phone s = Ok s \/ Phone s = Raise (ValueError PhoneMustContain10Digits).
Proof. unfold Phone. destruct (_ || _); auto. Qed.

Lemma Phone_ok_iff (s : pystr) :
  Phone s = Ok s
  <-> length s = 10%nat /\ Forall (fun c => isdigit_char c = true) s.
Proof.
  unfold Phone, len. split.
  - destruct (Z.of_nat (length s) =? 10) eqn:Hl; cbn [negb orb];
      [|discriminate].
    destruct (isdigit s) eqn:Hd; cbn [negb]; [|discriminate].
    intros _. apply Z.eqb_eq in Hl. apply isdigit_forall in Hd as [_ Hd].
    split; [lia | exact Hd].
  - intros [Hl Hd].
    assert (Hne : s <> []) by (intros ->; discriminate).
    replace (Z.of_nat (length s) =? 10) with true
      by (symmetry; apply Z.eqb_eq; lia).
    replace (isdigit s) with true
      by (symmetry; apply isdigit_forall; auto).
    reflexivity.
Qed.

(** C4, as the code has it: [Phone] accepts a string, and keeps it unchanged,
    exactly when it has 10 characters that are all digits for [str.isdigit];
    anything else raises the phone error; the ASCII digits 0-9 are such
    digits, so every string of 10 ASCII digits is accepted. *)
Theorem Phone_accepts_exactly_isdigit (s : pystr) :
  (Phone s = Ok s
   <-> length s = 10%nat /\ Forall (fun c => isdigit_char c = true) s)
  /\ (~ (length s = 10%nat /\ Forall (fun c => isdigit_char c = true) s)
      <-> Phone s = Raise (ValueError PhoneMustContain10Digits))
  /\ (length s = 10%nat /\ Forall (fun c => ascii_digit c = true) s
      -> Phone s = Ok s)
  /\ (length s <> 10%nat \/ Exists (fun c => isdigit_char c = false) s
      -> Phone s = Raise (ValueError PhoneMustContain10Digits)).
Proof.
  pose proof (Phone_ok_iff s) as Hiff.
  pose proof (Phone_cases s) as Hc.
  split; [exact Hiff|]. split; [|split].
  - split.
    + intros Hn. destruct Hc as [Hc|Hc]; [|exact Hc].
      exfalso. apply Hn, Hiff, Hc.
    + intros Hr Hv. apply Hiff in Hv. congruence.
  - intros [Hl Hd]. apply Hiff. split; [exact Hl|].
    eapply Forall_impl; [exact Hd|]. intros c. apply ascii_digit_isdigit.
  - intros Hbad. destruct Hc as [Hc|Hc]; [|exact Hc].
    exfalso. apply Hiff in Hc as [Hl Hd]. destruct Hbad as [Hbad|Hbad].
    + contradiction.
    + apply Exists_exists in Hbad as (c & Hin & Hc).
      rewrite Forall_forall in Hd. specialize (Hd c Hin). congruence.
Qed.

(** C4, as stated, fails: ten superscript twos are no decimal digits 0-9,
    and [Phone] accepts them. *)
Lemma Phone_accepts_superscript_twos :
  ~ (Phone superscript_twos = Ok superscript_twos
     <-> length superscript_twos = 10%nat
         /\ Forall (fun c => ascii_digit c = true) superscript_twos).
Proof.
  intros [H _].
  assert (Hok : Phone superscript_twos = Ok superscript_twos)
    by reflexivity.
  destruct (H Hok) as [_ Hd].
  inversion Hd as [|c l Hc _]. discriminate Hc.
Qed.

(** ** Records *)

Lemma eqb_eq (s t : pystr) : eqb s t = true <-> s = t.
Proof. unfold eqb. apply bool_decide_eq_true. Qed.

Lemma eqb_neq (s t : pystr) : eqb s t = false <-> s <> t.
Proof. unfold eqb. apply bool_decide_eq_false. Qed.

Lemma eqb_refl (s : pystr) : eqb s s = true.
Proof. now apply eqb_eq. Qed.

Lemma add_phone_ok (r : Record_) (phone : pystr) :
  Phone phone = Ok phone ->
  add_phone phone r
  = (Ok tt, mkRecord (name r) (phones r ++ [phone]) (birthday r)).
Proof. intros H. unfold add_phone, mbind, method_bind, m_bind, lift. now rewrite H. Qed.

(** C9: [add_phone] appends without looking for duplicates: two calls with
    the same valid number leave the old list followed by two entries with
    that number. *)
Theorem add_phone_twice_appends_twice (r : Record_) (phone : pystr) :
  Phone phone = Ok phone ->
  (_ ← add_phone phone; add_phone phone) r
  = (Ok tt, mkRecord (name r) (phones r ++ [phone; phone]) (birthday r))
  /\ forall r', snd ((_ ← add_phone phone; add_phone phone) r) = r' ->
       length (filter (fun p => p = phone) (phones r'))
       = (2 + length (filter (fun p => p = phone) (phones r)))%nat.
Proof.
  intros H.
  assert (Hrun : (_ ← add_phone phone; add_phone phone) r
    = (Ok tt, mkRecord (name r) (phones r ++ [phone; phone]) (birthday r))).
  { unfold mbind at 1. unfold method_bind, m_bind.
    rewrite (add_phone_ok r phone H), add_phone_ok by exact H.
    cbn [name phones birthday]. now rewrite <- app_assoc. }
  split; [exact Hrun|].
  intros r' <-. rewrite Hrun. cbn [snd phones].
  rewrite filter_app, length_app, !filter_cons, filter_nil.
  rewrite !decide_True by reflexivity. cbn [length]. lia.
Qed.

Lemma add_phone_twice_appends_twice_witness :
  Phone (str "0501234567") = Ok (str "0501234567")
  /\ (_ ← add_phone (str "0501234567"); add_phone (str "0501234567"))
       (Record_init (str "Ann"))
     = (Ok tt,
        mkRecord (str "Ann") [str "0501234567"; str "0501234567"] None).
Proof.
  split; [reflexivity|].
  exact (proj1 (add_phone_twice_appends_twice
                  (Record_init (str "Ann")) (str "0501234567") eq_refl)).
Defined.

Lemma edit_phone_loop_first (old new : pystr) (ps : list pystr) (i : nat) :
  ps !! i = Some old ->
  (forall j, (j < i)%nat -> ps !! j <> Some old) ->
  edit_phone_loop old new ps = Some (<[i := new]> ps).
Proof.
  revert i. induction ps as [|p ps IH]; intros i Hi Hfirst; [discriminate|].
  cbn [edit_phone_loop]. destruct i as [|i].
  - injection Hi as ->. now rewrite eqb_refl.
  - destruct (eqb p old) eqn:Hp.
    + apply eqb_eq in Hp. subst p.
      exfalso. apply (Hfirst 0%nat); [lia | reflexivity].
    + rewrite (IH i); [reflexivity | exact Hi |].
      intros j Hj. apply (Hfirst (S j)). lia.
Qed.

Lemma edit_phone_loop_absent (old new : pystr) (ps : list pystr) :
  old ∉ ps -> edit_phone_loop old new ps = None.
Proof.
  induction ps as [|p ps IH]; intros Hn; [reflexivity|].
  cbn [edit_phone_loop]. apply not_elem_of_cons in Hn as [Hne Hn].
  replace (eqb p old) with false by (symmetry; apply eqb_neq; congruence).
  now rewrite IH.
Qed.

(** What [edit_phone] does, from the outcome of [Phone] on the new number. *)
Lemma edit_phone_validates_first (r : Record_) (old new : pystr) :
  (Phone new <> Ok new ->
   edit_phone old new r = (Raise (ValueError PhoneMustContain10Digits), r))
  /\ (Phone new = Ok new ->
      forall i, phones r !! i = Some old ->
        (forall j, (j < i)%nat -> phones r !! j <> Some old) ->
        edit_phone old new r
        = (Ok tt, mkRecord (name r) (<[i := new]> (phones r)) (birthday r)))
  /\ (Phone new = Ok new -> old ∉ phones r ->
      edit_phone old new r = (Raise (ValueError (PhoneNotFound old)), r)).
Proof.
  unfold edit_phone, mbind, method_bind, m_bind, lift, get_self.
  split; [|split].
  - intros Hbad. destruct (Phone_cases new) as [H|H]; [contradiction|].
    now rewrite H.
  - intros Hok i Hi Hfirst. rewrite Hok.
    now rewrite (edit_phone_loop_first old new (phones r) i Hi Hfirst).
  - intros Hok Habs. rewrite Hok.
    now rewrite (edit_phone_loop_absent old new (phones r) Habs).
Qed.

(** C5, as stated, fails: ten superscript twos are not a number of ten
    decimal digits 0-9, yet [edit_phone] takes them as the new number,
    succeeds and changes the phone list. *)
Lemma edit_phone_accepts_superscript_twos :
  ~ Forall (fun c => ascii_digit c = true) superscript_twos
  /\ edit_phone (str "0501234567") superscript_twos one_phone_record
     = (Ok tt, mkRecord (str "Ann") [superscript_twos] None)
  /\ phones (snd (edit_phone (str "0501234567") superscript_twos
                    one_phone_record))
     <> phones one_phone_record.
Proof.
  split; [|split].
  - intros H. inversion H as [|c l Hc _]. discriminate Hc.
  - reflexivity.
  - discriminate.
Qed.

(** C5, as the code has it: [edit_phone] checks the new number first, by
    the test of [Phone]: ten characters that are all digits for
    [str.isdigit].  A new number that fails this test raises the phone
    error and leaves the record as it was; one that passes it replaces the
    first entry equal to the old number; with no such entry the call raises
    "not found" for the old number and leaves the record as it was. *)
Theorem edit_phone_validates_by_isdigit (r : Record_) (old new : pystr) :
  (~ (length new = 10%nat /\ Forall (fun c => isdigit_char c = true) new) ->
   edit_phone old new r = (Raise (ValueError PhoneMustContain10Digits), r))
  /\ (length new <> 10%nat \/ Exists (fun c => isdigit_char c = false) new ->
      edit_phone old new r = (Raise (ValueError PhoneMustContain10Digits), r))
  /\ (length new = 10%nat /\ Forall (fun c => isdigit_char c = true) new ->
      (forall i, phones r !! i = Some old ->
         (forall j, (j < i)%nat -> phones r !! j <> Some old) ->
         edit_phone old new r
         = (Ok tt, mkRecord (name r) (<[i := new]> (phones r)) (birthday r)))
      /\ (old ∉ phones r ->
          edit_phone old new r = (Raise (ValueError (PhoneNotFound old)), r))).
Proof.
  destruct (edit_phone_validates_first r old new) as (Hbad & Hrep & Habs).
  pose proof (Phone_ok_iff new) as Hiff.
  split; [|split].
  - intros Hn. apply Hbad. intros Hok. apply Hn, Hiff, Hok.
  - intros Hn. apply Hbad. intros Hok. apply Hiff in Hok as [Hl Hd].
    destruct Hn as [Hn|Hn]; [contradiction|].
    apply Exists_exists in Hn as (c & Hin & Hc).
    rewrite Forall_forall in Hd. specialize (Hd c Hin). congruence.
  - intros Hv. apply Hiff in Hv. split.
    + now apply Hrep.
    + now apply Habs.
Qed.

Lemma edit_phone_validates_by_isdigit_witness :
  edit_phone (str "0501234567") (str "12345") two_phone_record
  = (Raise (ValueError PhoneMustContain10Digits), two_phone_record)
  /\ edit_phone (str "0501234567") (str "0670000000") two_phone_record
     = (Ok tt,
        mkRecord (str "Ann") [str "0931111111"; str "0670000000"] None)
  /\ edit_phone (str "0440000000") (str "0670000000") two_phone_record
     = (Raise (ValueError (PhoneNotFound (str "0440000000"))),
        two_phone_record).
Proof.
  split; [|split].
  - apply (proj1 (proj2 (edit_phone_validates_by_isdigit two_phone_record
                           (str "0501234567") (str "12345")))).
    left. discriminate.
  - refine (proj1 (proj2 (proj2 (edit_phone_validates_by_isdigit
              two_phone_record (str "0501234567") (str "0670000000"))) _)
              1%nat eq_refl _).
    + split; [reflexivity|]. apply Forall_forall. intros c Hc.
      apply ascii_digit_isdigit.
      repeat (apply elem_of_cons in Hc as [->|Hc]; [reflexivity|]).
      now apply elem_of_nil in Hc.
    + intros [|j] Hj; [discriminate | lia].
  - refine (proj2 (proj2 (proj2 (edit_phone_validates_by_isdigit
              two_phone_record (str "0440000000") (str "0670000000"))) _) _).
    + split; [reflexivity|]. apply Forall_forall. intros c Hc.
      apply ascii_digit_isdigit.
      repeat (apply elem_of_cons in Hc as [->|Hc]; [reflexivity|]).
      now apply elem_of_nil in Hc.
    + intros H.
      repeat (apply elem_of_cons in H as [H|H]; [discriminate H|]).
      now apply elem_of_nil in H.
Defined.

(** The loop of [remove_phone] ends by itself: more steps than the length of
    the list change nothing. *)
Lemma remove_phone_loop_fuel (phone : pystr) (fuel extra i : nat)
    (ps : list pystr) :
  (length ps <= fuel + i)%nat ->
  remove_phone_loop (fuel + extra) phone i ps
  = remove_phone_loop fuel phone i ps.
Proof.
  revert i ps. induction fuel as [|fuel IH]; intros i ps Hlen.
  - cbn [Nat.add remove_phone_loop].
    destruct extra as [|extra]; [reflexivity|]. cbn [remove_phone_loop].
    now rewrite (lookup_ge_None_2 ps i) by lia.
  - cbn [Nat.add remove_phone_loop].
    destruct (ps !! i) as [p|] eqn:Hi; [|reflexivity].
    destruct (eqb p phone).
    + apply IH. rewrite length_delete by eauto. lia.
    + apply IH. lia.
Qed.

Lemma remove_phone_loop_absent (phone : pystr) (fuel i : nat)
    (ps : list pystr) :
  phone ∉ ps -> remove_phone_loop fuel phone i ps = ps.
Proof.
  revert i. induction fuel as [|fuel IH]; intros i Habs; [reflexivity|].
  cbn [remove_phone_loop]. destruct (ps !! i) as [p|] eqn:Hi; [|reflexivity].
  replace (eqb p phone) with false; [now apply IH|].
  symmetry. apply eqb_neq. intros ->. apply Habs.
  eapply list_elem_of_lookup_2, Hi.
Qed.

Lemma remove_phone_loop_past_end (phone : pystr) (fuel i : nat)
    (ps : list pystr) :
  (length ps <= i)%nat -> remove_phone_loop fuel phone i ps = ps.
Proof.
  intros Hi. destruct fuel as [|fuel]; [reflexivity|].
  cbn [remove_phone_loop]. now rewrite (lookup_ge_None_2 ps i) by lia.
Qed.

Lemma remove_phone_loop_skipping (phone : pystr) (fuel : nat)
    (pre ps : list pystr) :
  (length ps <= fuel)%nat ->
  remove_phone_loop fuel phone (length pre) (pre ++ ps)
  = pre ++ remove_skipping phone ps.
Proof.
  revert pre ps. induction fuel as [|fuel IH]; intros pre ps Hlen.
  - destruct ps; [reflexivity | cbn in Hlen; lia].
  - cbn [remove_phone_loop]. destruct ps as [|p ps].
    + now rewrite lookup_ge_None_2 by (rewrite length_app; cbn; lia).
    + rewrite list_lookup_middle by reflexivity.
      cbn [remove_skipping length] in *. destruct (eqb p phone).
      * replace (base.delete (length pre) (pre ++ p :: ps)) with (pre ++ ps)
          by (symmetry; apply (delete_middle pre ps p)).
        destruct ps as [|q ps].
        -- apply remove_phone_loop_past_end. rewrite length_app. cbn. lia.
        -- replace (S (length pre)) with (length (pre ++ [q]))
             by (rewrite length_app; cbn; lia).
           replace (pre ++ q :: ps) with ((pre ++ [q]) ++ ps)
             by now rewrite <- app_assoc.
           rewrite IH by (cbn in Hlen; lia). now rewrite <- app_assoc.
      * replace (S (length pre)) with (length (pre ++ [p]))
          by (rewrite length_app; cbn; lia).
        replace (pre ++ p :: ps) with ((pre ++ [p]) ++ ps)
          by now rewrite <- app_assoc.
        rewrite IH by lia. now rewrite <- app_assoc.
Qed.

(** What [remove_phone] does to every record. *)
Lemma remove_phone_skipping (r : Record_) (phone : pystr) :
  remove_phone phone r
  = (Ok tt,
     mkRecord (name r) (remove_skipping phone (phones r)) (birthday r)).
Proof.
  unfold remove_phone, mbind, method_bind, m_bind, get_self, set_phones.
  now rewrite (remove_phone_loop_skipping phone _ [] (phones r)).
Qed.

(** The part of C8 that holds: with no entry equal to [phone],
    [remove_phone] raises nothing and leaves the record as it was. *)
Lemma remove_phone_absent (r : Record_) (phone : pystr) :
  phone ∉ phones r -> remove_phone phone r = (Ok tt, r).
Proof.
  intros Habs. unfold remove_phone, mbind, method_bind, m_bind, get_self,
    set_phones.
  rewrite remove_phone_loop_absent by exact Habs. now destruct r.
Qed.

(** C8 fails on three equal entries: the loop removes the first, steps over
    the second, which has moved under the cursor, and removes the third; one
    entry equal to [phone] stays, which is neither "the first removed" (two
    would stay) nor "all removed" (none would). *)
Theorem remove_phone_skips_entry :
  remove_phone triple_phone triple_record
  = (Ok tt, mkRecord (str "Ann") [triple_phone] None)
  /\ phones (snd (remove_phone triple_phone triple_record))
     <> [triple_phone; triple_phone]
  /\ phones (snd (remove_phone triple_phone triple_record)) <> [].
Proof. split; [reflexivity | split; discriminate]. Qed.

(** ** The address book *)

Lemma get_setitem_eq {V} (k : pystr) (v : V) (d : Dict.dict V) :
  Dict.get k (Dict.setitem k v d) = Some v.
Proof.
  induction d as [|[k' v'] d IH]; cbn [Dict.setitem Dict.get].
  - now rewrite eqb_refl.
  - destruct (eqb k' k) eqn:Hk; cbn [Dict.get]; now rewrite Hk.
Qed.

Lemma get_setitem_ne {V} (k k0 : pystr) (v : V) (d : Dict.dict V) :
  k0 <> k -> Dict.get k0 (Dict.setitem k v d) = Dict.get k0 d.
Proof.
  intros Hne. induction d as [|[k' v'] d IH]; cbn [Dict.setitem Dict.get].
  - now replace (eqb k k0) with false by (symmetry; apply eqb_neq; congruence).
  - destruct (eqb k' k) eqn:Hk; cbn [Dict.get].
    + apply eqb_eq in Hk. subst k'.
      now replace (eqb k k0) with false
        by (symmetry; apply eqb_neq; congruence).
    + now rewrite IH.
Qed.

Lemma keys_setitem_present {V} (k : pystr) (v old : V) (d : Dict.dict V) :
  Dict.get k d = Some old -> Dict.keys (Dict.setitem k v d) = Dict.keys d.
Proof.
  induction d as [|[k' v'] d IH]; cbn [Dict.setitem Dict.get]; [discriminate|].
  destruct (eqb k' k) eqn:Hk; [reflexivity|].
  intros H. unfold Dict.keys in *. cbn [map fst]. now rewrite IH.
Qed.

(** C6: adding a record under a name that is present replaces the stored
    record: [find] then returns the new record, with its phones and its
    birthday and nothing of the old one; no second entry is made for the
    name and the other names keep their records. *)
Theorem add_record_replaces (book : AddressBook.t) (record old : Record_) :
  AddressBook.find book (name record) = Some old ->
  AddressBook.find (AddressBook.add_record book record) (name record)
  = Some record
  /\ (forall found,
        AddressBook.find (AddressBook.add_record book record) (name record)
        = Some found ->
        phones found = phones record /\ birthday found = birthday record)
  /\ Dict.keys (AddressBook.data (AddressBook.add_record book record))
     = Dict.keys (AddressBook.data book)
  /\ (forall other, other <> name record ->
        AddressBook.find (AddressBook.add_record book record) other
        = AddressBook.find book other).
Proof.
  intros Hold. unfold AddressBook.find, AddressBook.add_record in *.
  cbn [AddressBook.data].
  split; [apply get_setitem_eq|]. split; [|split].
  - intros found. rewrite get_setitem_eq. now intros [= <-].
  - eapply keys_setitem_present, Hold.
  - intros other Hne. now apply get_setitem_ne.
Qed.

Lemma add_record_replaces_witness :
  AddressBook.find ann_book (str "Ann") = Some ann_old
  /\ AddressBook.find (AddressBook.add_record ann_book ann_new) (str "Ann")
     = Some ann_new.
Proof.
  split; [reflexivity|].
  exact (proj1 (add_record_replaces ann_book ann_new ann_old eq_refl)).
Defined.

(** ** The calendar *)

Lemma month_cases (m : Z) :
  1 <= m <= 12 ->
  m = 1 \/ m = 2 \/ m = 3 \/ m = 4 \/ m = 5 \/ m = 6 \/ m = 7 \/ m = 8
  \/ m = 9 \/ m = 10 \/ m = 11 \/ m = 12.
Proof. lia. Qed.

Ltac each_month H :=
  apply month_cases in H;
  repeat (destruct H as [H|H]; [subst|]); [..|subst].

Lemma dim_l_bounds (l : bool) (m : Z) :
  1 <= m <= 12 -> 28 <= dim_l l m <= 31.
Proof. intros H. each_month H; destruct l; vm_compute; split; discriminate. Qed.

Lemma dbm_l_year (l : bool) (m : Z) :
  1 <= m <= 12 -> 0 <= dbm_l l m /\ dbm_l l m + dim_l l m <= 365 + leap_day l.
Proof. intros H. each_month H; destruct l; vm_compute; split; discriminate. Qed.

Lemma dbm_l_mono (l : bool) (m1 m2 : Z) :
  1 <= m1 -> m1 < m2 -> m2 <= 12 -> dbm_l l m1 + dim_l l m1 <= dbm_l l m2.
Proof.
  intros H1 H12 H2.
  assert (Hm1 : 1 <= m1 <= 12) by lia.
  assert (Hm2 : 1 <= m2 <= 12) by lia.
  each_month Hm1; each_month Hm2; try lia; destruct l; vm_compute;
    discriminate.
Qed.

(** The years: from one year to the next, and in the cycles of 400, 100
    and 4 years that [_ord2ymd] counts. *)
Lemma is_leap_spec (y : Z) :
  _is_leap y = true <-> y mod 4 = 0 /\ (y mod 100 <> 0 \/ y mod 400 = 0).
Proof.
  unfold _is_leap.
  rewrite andb_true_iff, orb_true_iff, negb_true_iff, !Z.eqb_eq, Z.eqb_neq.
  tauto.
Qed.

Lemma days_before_year_mono (y1 y2 : Z) :
  y1 <= y2 -> _days_before_year y1 <= _days_before_year y2.
Proof. unfold _days_before_year. intros H. Z.div_mod_to_equations. lia. Qed.

Lemma days_before_year_succ (y : Z) :
  _days_before_year (y + 1)
  = _days_before_year y + 365 + leap_day (_is_leap y).
Proof.
  unfold leap_day. destruct (_is_leap y) eqn:Hl.
  - apply is_leap_spec in Hl. unfold _days_before_year.
    Z.div_mod_to_equations. lia.
  - assert (Hn : ~ (y mod 4 = 0 /\ (y mod 100 <> 0 \/ y mod 400 = 0))).
    { intros H. apply is_leap_spec in H. congruence. }
    unfold _days_before_year. Z.div_mod_to_equations. lia.
Qed.

Lemma year_cycles (a b c e : Z) :
  0 <= b <= 3 -> 0 <= c <= 24 -> 0 <= e <= 3 ->
  let y := 400 * a + 100 * b + 4 * c + e + 1 in
  _days_before_year y = 146097 * a + 36524 * b + 1461 * c + 365 * e
  /\ _is_leap y = (e =? 3) && (negb (c =? 24) || (b =? 3)).
Proof.
  intros Hb Hc He y. split.
  - unfold _days_before_year, y. Z.div_mod_to_equations. lia.
  - destruct ((e =? 3) && (negb (c =? 24) || (b =? 3))) eqn:Hf.
    + apply is_leap_spec.
      rewrite andb_true_iff, orb_true_iff, negb_true_iff, !Z.eqb_eq,
        Z.eqb_neq in Hf.
      unfold y. Z.div_mod_to_equations. lia.
    + assert (Hn : ~ (e = 3 /\ (c <> 24 \/ b = 3))).
      { intros H. rewrite <- Z.eqb_neq in H.
        rewrite <- !Z.eqb_eq, <- negb_true_iff, <- orb_true_iff,
          <- andb_true_iff in H. congruence. }
      destruct (_is_leap y) eqn:Hl; [|reflexivity].
      apply is_leap_spec in Hl. exfalso. apply Hn.
      unfold y in Hl. Z.div_mod_to_equations. lia.
Qed.

Lemma ord2md_checked (l : bool) :
  forallb (fun k => ord2md_ok l (Z.of_nat k)) (seq 0 365) = true.
Proof. destruct l; vm_compute; reflexivity. Qed.

Lemma ord2md_spec (l : bool) (n : Z) :
  0 <= n < 365 ->
  let '(m, d) := ord2md l n in
  1 <= m <= 12 /\ 1 <= d <= dim_l l m /\ dbm_l l m + d = n + 1.
Proof.
  intros Hn. pose proof (ord2md_checked l) as H.
  rewrite forallb_forall in H.
  specialize (H (Z.to_nat n)).
  rewrite Z2Nat.id in H by lia.
  assert (Hin : In (Z.to_nat n) (seq 0 365)) by (apply in_seq; lia).
  apply H in Hin. unfold ord2md_ok in Hin.
  destruct (ord2md l n) as [m d].
  rewrite !andb_true_iff, !Z.leb_le, Z.eqb_eq in Hin. lia.
Qed.

Lemma days_in_month_l (y m : Z) : _days_in_month y m = dim_l (_is_leap y) m.
Proof. reflexivity. Qed.

Lemma days_before_month_l (y m : Z) :
  _days_before_month y m = dbm_l (_is_leap y) m.
Proof. reflexivity. Qed.

(** [_ord2ymd] gives the fields of a date, and [_ymd2ord] gives the ordinal
    back. *)
Lemma ord2ymd_spec (n : Z) :
  1 <= n <= _MAXORDINAL ->
  let '(y, m, d) := _ord2ymd n in
  MINYEAR <= y <= MAXYEAR /\ 1 <= m <= 12 /\ 1 <= d <= _days_in_month y m
  /\ _ymd2ord y m d = n.
Proof.
  unfold _MAXORDINAL, MINYEAR, MAXYEAR. intros Hn.
  unfold _ord2ymd, _DI400Y, _DI100Y, _DI4Y.
  set (a := (n - 1) / 146097). set (r1 := (n - 1) mod 146097).
  set (b := r1 / 36524). set (r2 := r1 mod 36524).
  set (c := r2 / 1461). set (r3 := r2 mod 1461).
  set (e := r3 / 365). set (r4 := r3 mod 365).
  assert (Hdec : n - 1 = 146097 * a + 36524 * b + 1461 * c + 365 * e + r4
            /\ 0 <= a <= 24 /\ 0 <= b <= 4 /\ 0 <= c <= 24 /\ 0 <= e <= 4
            /\ 0 <= r4 < 365
            /\ (b = 4 -> c = 0 /\ e = 0 /\ r4 = 0)
            /\ (e = 4 -> r4 = 0 /\ c <= 23)
            /\ 400 * a + 100 * b + 4 * c + e <= 9999
            /\ (b <= 3 -> e <= 3 -> 400 * a + 100 * b + 4 * c + e <= 9998)).
  { unfold a, b, c, e, r4, r3, r2, r1. Z.div_mod_to_equations. lia. }
  clearbody a b c e r4. clear r1 r2 r3.
  destruct Hdec as (Hsum & Ha & Hb & Hc & He & Hr & Hb4 & He4 & Hy & Hy').
  destruct ((e =? 4) || (b =? 4)) eqn:Hsp.
  - (* the last day of a leap year *)
    rewrite orb_true_iff, !Z.eqb_eq in Hsp.
    assert (Hlast : exists b' c', 0 <= b' <= 3 /\ 0 <= c' <= 24
               /\ (c' <> 24 \/ b' = 3)
               /\ a * 400 + 1 + b * 100 + c * 4 + e - 1
                  = 400 * a + 100 * b' + 4 * c' + 3 + 1
               /\ n - 366 = 146097 * a + 36524 * b' + 1461 * c' + 365 * 3).
    { destruct (Z.eq_dec b 4) as [->|Hb'].
      - exists 3, 24. lia.
      - exists b, c. lia. }
    destruct Hlast as (b' & c' & Hb' & Hc' & Hleap & -> & Hord).
    destruct (year_cycles a b' c' 3 Hb' Hc' ltac:(lia)) as [Hdby Hl].
    cbv zeta in Hdby, Hl.
    assert (Hl' : _is_leap (400 * a + 100 * b' + 4 * c' + 3 + 1) = true).
    { rewrite Hl. apply andb_true_iff. split; [reflexivity|].
      apply orb_true_iff. rewrite negb_true_iff, Z.eqb_neq, Z.eqb_eq. lia. }
    repeat split; try lia.
    + rewrite days_in_month_l, Hl'. vm_compute. discriminate.
    + unfold _ymd2ord. rewrite days_before_month_l, Hl', Hdby.
      change (dbm_l true 12) with 335. lia.
  - (* any other day *)
    rewrite orb_false_iff, !Z.eqb_neq in Hsp.
    assert (Hb3 : 0 <= b <= 3) by lia. assert (He3 : 0 <= e <= 3) by lia.
    destruct (year_cycles a b c e Hb3 Hc He3) as [Hdby Hl].
    cbv zeta in Hdby, Hl.
    replace (a * 400 + 1 + b * 100 + c * 4 + e)
      with (400 * a + 100 * b + 4 * c + e + 1) by lia.
    set (y := 400 * a + 100 * b + 4 * c + e + 1) in *.
    rewrite <- Hl.
    pose proof (ord2md_spec (_is_leap y) r4 Hr) as Hmd.
    unfold ord2md in Hmd.
    destruct (if r4 <? _ then _ else _) as [m p].
    destruct Hmd as (Hm & Hd & Hsum').
    repeat split; try lia.
    + rewrite days_in_month_l. lia.
    + unfold _ymd2ord. rewrite days_before_month_l, Hdby. lia.
Qed.

Lemma fromordinal_valid (n : Z) :
  1 <= n <= _MAXORDINAL -> Date.valid (fromordinal n).
Proof.
  intros Hn. pose proof (ord2ymd_spec n Hn) as H.
  unfold fromordinal, Date.valid. destruct (_ord2ymd n) as [[y m] d].
  cbn [year month day]. tauto.
Qed.

Lemma toordinal_fromordinal (n : Z) :
  1 <= n <= _MAXORDINAL -> toordinal (fromordinal n) = n.
Proof.
  intros Hn. pose proof (ord2ymd_spec n Hn) as H.
  unfold fromordinal, toordinal. destruct (_ord2ymd n) as [[y m] d].
  cbn [year month day]. tauto.
Qed.

(** The days of a year come after those of the years before it and before
    those of the years after it. *)
Lemma toordinal_in_year (d : date) :
  Date.valid d ->
  _days_before_year (year d) < toordinal d
  /\ toordinal d <= _days_before_year (year d + 1).
Proof.
  intros (Hy & Hm & Hd). unfold toordinal, _ymd2ord.
  rewrite days_before_year_succ, days_before_month_l.
  rewrite days_in_month_l in Hd.
  pose proof (dbm_l_year (_is_leap (year d)) (month d) Hm). lia.
Qed.

Lemma toordinal_range (d : date) :
  Date.valid d -> 1 <= toordinal d <= _MAXORDINAL.
Proof.
  intros Hv. pose proof (toordinal_in_year d Hv) as [Hlo Hhi].
  destruct Hv as ([Hy1 Hy2] & _). unfold MINYEAR, MAXYEAR in *.
  pose proof (days_before_year_mono 1 (year d) Hy1) as H1.
  pose proof (days_before_year_mono (year d + 1) 10000 ltac:(lia)) as H2.
  change (_days_before_year 1) with 0 in H1.
  change (_days_before_year 10000) with 3652059 in H2.
  unfold _MAXORDINAL. lia.
Qed.

Lemma ltb_toordinal_lt (a b : date) :
  Date.valid a -> Date.valid b ->
  Date.ltb a b = true -> toordinal a < toordinal b.
Proof.
  intros Ha Hb Hlt.
  pose proof (toordinal_in_year a Ha) as [Ha1 Ha2].
  pose proof (toordinal_in_year b Hb) as [Hb1 Hb2].
  unfold Date.ltb in Hlt.
  rewrite !orb_true_iff, !andb_true_iff, !orb_true_iff, !andb_true_iff,
    !Z.ltb_lt, !Z.eqb_eq in Hlt.
  destruct Hlt as [Hy | [Hy [Hm | [Hm Hd]]]].
  - pose proof (days_before_year_mono (year a + 1) (year b) ltac:(lia)). lia.
  - destruct Ha as (_ & Hma & Hda). destruct Hb as (_ & Hmb & Hdb).
    unfold toordinal, _ymd2ord. rewrite !days_before_month_l, <- Hy.
    rewrite days_in_month_l in Hda.
    pose proof (dbm_l_mono (_is_leap (year a)) (month a) (month b)
                  ltac:(lia) Hm ltac:(lia)). lia.
  - unfold toordinal, _ymd2ord. rewrite Hy, Hm. lia.
Qed.

Lemma ltb_total (a b : date) :
  Date.ltb a b = false -> a = b \/ Date.ltb b a = true.
Proof.
  destruct a as [ya ma da], b as [yb mb db]. unfold Date.ltb.
  cbn [year month day].
  rewrite !orb_false_iff, !andb_false_iff, !orb_false_iff, !andb_false_iff,
    !Z.ltb_ge, !Z.eqb_neq.
  rewrite !orb_true_iff, !andb_true_iff, !orb_true_iff, !andb_true_iff,
    !Z.ltb_lt, !Z.eqb_eq.
  intros H.
  assert (Hc : (ya = yb /\ ma = mb /\ da = db)
               \/ (yb < ya \/ yb = ya /\ (mb < ma \/ mb = ma /\ db < da)))
    by lia.
  destruct Hc as [(-> & -> & ->)|Hc]; [now left | now right].
Qed.

(** Dates compare as their ordinals do. *)
Lemma ltb_iff_toordinal (a b : date) :
  Date.valid a -> Date.valid b ->
  Date.ltb a b = true <-> toordinal a < toordinal b.
Proof.
  intros Ha Hb. split; [now apply ltb_toordinal_lt|].
  intros Hlt. destruct (Date.ltb a b) eqn:Hab; [reflexivity|].
  apply ltb_total in Hab as [->|Hba]; [lia|].
  apply ltb_toordinal_lt in Hba; [lia | assumption | assumption].
Qed.

Lemma weekday_range (d : date) : 0 <= Date.weekday d < 7.
Proof. unfold Date.weekday. apply Z.mod_pos_bound. lia. Qed.

Lemma add_days_spec (d : date) (k : Z) :
  Date.valid d -> 1 <= toordinal d + k <= _MAXORDINAL ->
  exists r, Date.add_days d k = Ok r /\ Date.valid r
            /\ toordinal r = toordinal d + k.
Proof.
  intros Hv Hk. unfold Date.add_days.
  replace (0 <? toordinal d + k) with true
    by (symmetry; apply Z.ltb_lt; lia).
  replace (toordinal d + k <=? _MAXORDINAL) with true
    by (symmetry; apply Z.leb_le; lia).
  cbn [andb]. eexists. split; [reflexivity|]. split.
  - now apply fromordinal_valid.
  - now apply toordinal_fromordinal.
Qed.

(** ** The weekend rule *)

(** C2: for every date, [adjust_for_weekend] returns a Monday to Friday
    date unchanged, and takes a Saturday or a Sunday to the next Monday: a
    date that is a Monday, later than the given one, with no Monday after
    the given date before it. *)
Theorem adjust_for_weekend_next_monday (d : date) :
  Date.valid d ->
  (Date.weekday d < 5 -> AddressBook.adjust_for_weekend d = Ok d)
  /\ (5 <= Date.weekday d ->
      exists r, AddressBook.adjust_for_weekend d = Ok r
        /\ Date.valid r /\ Date.weekday r = 0 /\ Date.ltb d r = true
        /\ forall x, Date.valid x -> Date.ltb d x = true ->
             Date.weekday x = 0 -> Date.ltb x r = false).
Proof.
  intros Hv. unfold AddressBook.adjust_for_weekend. split.
  - intros Hw. now replace (5 <=? Date.weekday d) with false
      by (symmetry; apply Z.leb_gt; lia).
  - intros Hw. replace (5 <=? Date.weekday d) with true
      by (symmetry; apply Z.leb_le; lia).
    unfold AddressBook.find_next_weekday.
    pose proof (weekday_range d) as Hr.
    replace (0 - Date.weekday d <=? 0) with true
      by (symmetry; apply Z.leb_le; lia).
    pose proof (toordinal_range d Hv) as Hord.
    assert (Hfit : 1 <= toordinal d + (0 - Date.weekday d + 7) <= _MAXORDINAL).
    { unfold Date.weekday, _MAXORDINAL in *. Z.div_mod_to_equations. lia. }
    destruct (add_days_spec d _ Hv Hfit) as (r & Hadd & Hvr & Hor).
    exists r. split; [exact Hadd|]. split; [exact Hvr|]. split; [|split].
    + unfold Date.weekday in *. rewrite Hor. Z.div_mod_to_equations. lia.
    + apply ltb_iff_toordinal; [assumption..|]. lia.
    + intros x Hvx Hdx Hwx.
      apply ltb_iff_toordinal in Hdx; [|assumption..].
      destruct (Date.ltb x r) eqn:Hxr; [|reflexivity].
      apply ltb_iff_toordinal in Hxr; [|assumption..].
      exfalso. unfold Date.weekday in *. Z.div_mod_to_equations. lia.
Qed.

Lemma adjust_for_weekend_next_monday_witness :
  Date.valid (mkdate 2024 6 15)
  /\ Date.weekday (mkdate 2024 6 15) = 5
  /\ exists r, AddressBook.adjust_for_weekend (mkdate 2024 6 15) = Ok r
       /\ Date.weekday r = 0 /\ Date.ltb (mkdate 2024 6 15) r = true.
Proof.
  assert (Hv : Date.valid (mkdate 2024 6 15)) by (vm_compute; intuition discriminate).
  split; [exact Hv|]. split; [reflexivity|].
  destruct (proj2 (adjust_for_weekend_next_monday (mkdate 2024 6 15) Hv))
    as (r & H1 & _ & H2 & H3 & _).
  - vm_compute. discriminate.
  - exists r. auto.
Defined.

(** ** Parsing and printing dates *)

Lemma to_decimal_ascii (k : Z) : 0 <= k <= 9 -> to_decimal (48 + k) = Some k.
Proof.
  intros Hk. unfold to_decimal. cbn [unicode_Nd_zeros decimal_in].
  replace (48 <=? 48 + k) with true by (symmetry; apply Z.leb_le; lia).
  replace (48 + k <? 48 + 10) with true by (symmetry; apply Z.ltb_lt; lia).
  cbn [andb]. f_equal. lia.
Qed.

Lemma isdecimal_ascii (k : Z) : 0 <= k <= 9 -> isdecimal_char (48 + k) = true.
Proof. intros Hk. unfold isdecimal_char. now rewrite to_decimal_ascii. Qed.

Lemma digit_of_mod (n : Z) : 0 <= n mod 10 <= 9.
Proof. pose proof (Z.mod_pos_bound n 10). lia. Qed.

(** Four zero-filled digits are matched by [%Y] and read back by [int]. *)
Lemma matches_re_Y (y : Z) (rest : pystr) :
  matches re_Y (zero_padded 4 y ++ rest) = [(zero_padded 4 y, rest)].
Proof.
  cbn [zero_padded app]. unfold re_Y.
  cbn [matches flat_map map app fst snd].
  rewrite !isdecimal_ascii by apply digit_of_mod.
  cbn [matches flat_map map app fst snd].
  rewrite !isdecimal_ascii by apply digit_of_mod.
  cbn [matches flat_map map app fst snd].
  rewrite !isdecimal_ascii by apply digit_of_mod.
  cbn [matches flat_map map app fst snd].
  rewrite !isdecimal_ascii by apply digit_of_mod.
  reflexivity.
Qed.

Lemma int_zero_padded_4 (y : Z) :
  0 <= y <= 9999 -> int (zero_padded 4 y) = Some y.
Proof.
  intros Hy. cbn [zero_padded app]. unfold int.
  assert (Hnb : forall k s, 0 <= k <= 9 ->
            lstrip_blank (48 + k :: s) = 48 + k :: s).
  { intros k s Hk. cbn [lstrip_blank].
    destruct (48 + k) as [|p|p] eqn:Hp; try reflexivity.
    assert (Hp' : Z.pos p <> 32) by lia.
    do 6 (destruct p as [p|p|]; try reflexivity). congruence. }
  rewrite Hnb by apply digit_of_mod.
  cbn [int_digits]. rewrite !to_decimal_ascii by apply digit_of_mod.
  f_equal. Z.div_mod_to_equations. lia.
Qed.

Lemma day_cases (d : Z) :
  1 <= d <= 31 ->
  d = 1 \/ d = 2 \/ d = 3 \/ d = 4 \/ d = 5 \/ d = 6 \/ d = 7 \/ d = 8
  \/ d = 9 \/ d = 10 \/ d = 11 \/ d = 12 \/ d = 13 \/ d = 14 \/ d = 15
  \/ d = 16 \/ d = 17 \/ d = 18 \/ d = 19 \/ d = 20 \/ d = 21 \/ d = 22
  \/ d = 23 \/ d = 24 \/ d = 25 \/ d = 26 \/ d = 27 \/ d = 28 \/ d = 29
  \/ d = 30 \/ d = 31.
Proof. lia. Qed.

(** A day or a month, zero filled to two digits or not filled, is the first
    match of its group when a dot follows, and [int] reads it back. *)
Lemma matches_re_d (short : bool) (d : Z) (rest : pystr) :
  1 <= d <= 31 ->
  (exists tl, matches re_d (group_text short d ++ 46 :: rest)
              = (group_text short d, 46 :: rest) :: tl)
  /\ int (group_text short d) = Some d.
Proof.
  intros H. apply day_cases in H.
  repeat (destruct H as [H|H]; [subst d|]); [..|subst d];
    destruct short; (split; [eexists; cbv; reflexivity | reflexivity]).
Qed.

Lemma matches_re_m (short : bool) (m : Z) (rest : pystr) :
  1 <= m <= 12 ->
  (exists tl, matches re_m (group_text short m ++ 46 :: rest)
              = (group_text short m, 46 :: rest) :: tl)
  /\ int (group_text short m) = Some m.
Proof.
  intros H. apply month_cases in H.
  repeat (destruct H as [H|H]; [subst m|]); [..|subst m];
    destruct short; (split; [eexists; cbv; reflexivity | reflexivity]).
Qed.

Lemma render_text (d : date) : render d = date_text false d.
Proof. reflexivity. Qed.


Lemma new_valid (d : date) :
  Date.valid d -> Date.new (year d) (month d) (day d) = Ok d.
Proof.
  intros (Hy & Hm & Hd). unfold Date.new.
  replace ((MINYEAR <=? year d) && (year d <=? MAXYEAR)) with true
    by (symmetry; apply andb_true_iff; rewrite !Z.leb_le; lia).
  replace ((1 <=? month d) && (month d <=? 12)) with true
    by (symmetry; apply andb_true_iff; rewrite !Z.leb_le; lia).
  replace ((1 <=? day d) && (day d <=? _days_in_month (year d) (month d)))
    with true by (symmetry; apply andb_true_iff; rewrite !Z.leb_le; lia).
  cbn [negb]. now destruct d.
Qed.

Lemma new_ok_valid (y m d : Z) (r : date) :
  Date.new y m d = Ok r -> r = mkdate y m d /\ Date.valid r.
Proof.
  unfold Date.new.
  destruct ((MINYEAR <=? y) && (y <=? MAXYEAR)) eqn:Hy; cbn [negb];
    [|discriminate].
  destruct ((1 <=? m) && (m <=? 12)) eqn:Hm; cbn [negb]; [|discriminate].
  destruct ((1 <=? d) && (d <=? _days_in_month y m)) eqn:Hd; cbn [negb];
    [|discriminate].
  intros [= <-]. split; [reflexivity|].
  rewrite andb_true_iff, !Z.leb_le in Hy, Hm, Hd.
  unfold Date.valid. cbn [year month day]. lia.
Qed.

(** [strptime] reads a date back from its text, zero filled or not. *)
Lemma strptime_date_text (short : bool) (d : date) :
  Date.valid d -> strptime (date_text short d) = Ok d.
Proof.
  intros Hv. pose proof Hv as (Hy & Hm & Hd).
  assert (Hd31 : 1 <= day d <= 31).
  { rewrite days_in_month_l in Hd.
    pose proof (dim_l_bounds (_is_leap (year d)) (month d) Hm). lia. }
  unfold MINYEAR, MAXYEAR in Hy.
  unfold strptime, format_matches, date_text. cbn [app].
  destruct (matches_re_d short (day d)
              (group_text short (month d) ++ 46 :: zero_padded 4 (year d))
              Hd31) as [[tld Hmd] Hid].
  destruct (matches_re_m short (month d) (zero_padded 4 (year d)) Hm)
    as [[tlm Hmm] Him].
  rewrite Hmd. cbn [flat_map fst snd].
  change re_dot with (Lit 46). cbn [matches]. rewrite Z.eqb_refl.
  cbn [flat_map fst snd app]. rewrite Hmm. cbn [flat_map fst snd].
  change re_dot with (Lit 46). cbn [matches]. rewrite Z.eqb_refl.
  cbn [flat_map fst snd app].
  pose proof (matches_re_Y (year d) []) as HY. rewrite app_nil_r in HY.
  rewrite HY. cbn [map app fst snd].
  unfold int_group. rewrite int_zero_padded_4, Him, Hid by lia.
  cbn. now apply new_valid.
Qed.

Lemma strptime_ok_valid (s : pystr) (d : date) :
  strptime s = Ok d -> Date.valid d.
Proof.
  unfold strptime. destruct (format_matches s) as [|[[[dt mt] yt] rest] tl];
    [discriminate|].
  destruct rest; [|discriminate].
  destruct (int_group yt) as [y|]; [|discriminate].
  destruct (int_group mt) as [m|]; [|discriminate].
  destruct (int_group dt) as [dd|]; [|discriminate].
  cbn. intros H. now apply new_ok_valid in H as [_ H].
Qed.

Lemma strftime_render (pads : bool) (d : date) :
  pads = true \/ 1000 <= year d -> strftime pads d = render d.
Proof.
  intros H. unfold strftime, render, strftime_Y.
  destruct pads; [reflexivity|]. destruct H as [H|H]; [discriminate|].
  unfold digits_count.
  replace (year d <? 10) with false by (symmetry; apply Z.ltb_ge; lia).
  replace (year d <? 100) with false by (symmetry; apply Z.ltb_ge; lia).
  replace (year d <? 1000) with false by (symmetry; apply Z.ltb_ge; lia).
  reflexivity.
Qed.

(** ** Birthdays *)

Lemma ltb_irrefl (a : date) : Date.ltb a a = false.
Proof.
  unfold Date.ltb.
  rewrite !orb_false_iff, !andb_false_iff, !orb_false_iff, !andb_false_iff,
    !Z.ltb_ge, !Z.eqb_neq. lia.
Qed.

Lemma ltb_asym (a b : date) : Date.ltb a b = true -> Date.ltb b a = false.
Proof.
  unfold Date.ltb.
  rewrite !orb_false_iff, !andb_false_iff, !orb_false_iff, !andb_false_iff,
    !Z.ltb_ge, !Z.eqb_neq.
  rewrite !orb_true_iff, !andb_true_iff, !orb_true_iff, !andb_true_iff,
    !Z.ltb_lt, !Z.eqb_eq. lia.
Qed.

Lemma strptime_raises_ValueError (s : pystr) (e : exn) :
  strptime s = Raise e -> exists m, e = ValueError m.
Proof.
  unfold strptime. destruct (format_matches s) as [|[[[dt mt] yt] rest] tl].
  - intros [= <-]. eauto.
  - destruct rest; [|intros [= <-]; eauto].
    unfold int_group.
    destruct (int yt) as [y|]; [|intros [= <-]; eauto].
    destruct (int mt) as [m|]; [|intros [= <-]; eauto].
    destruct (int dt) as [d|]; [|intros [= <-]; eauto].
    cbn. unfold Date.new.
    repeat (destruct (negb _); [intros [= <-]; eauto|]). discriminate.
Qed.

Lemma Birthday_parsed (E : env) (s : pystr) (d : date) :
  strptime s = Ok d ->
  Birthday E s
  = if Date.gtb d (today E)
    then Raise (ValueError (InvalidDate DateOfBirthInFuture))
    else Ok (strftime (libc_pads_year E) d).
Proof.
  intros H. unfold Birthday, Birthday_try. rewrite H. cbn.
  now destruct (Date.gtb d (today E)).
Qed.

(** C7: with the date of today given, [Birthday] raises the future-date
    error for the text [DD.MM.YYYY] of every date after today, and accepts
    the text of today and of every date before today. *)
Theorem Birthday_rejects_only_future (E : env) (d : date) :
  Date.valid d ->
  (Date.ltb (today E) d = true ->
   Birthday E (render d)
   = Raise (ValueError (InvalidDate DateOfBirthInFuture)))
  /\ (d = today E \/ Date.ltb d (today E) = true ->
      Birthday E (render d) = Ok (strftime (libc_pads_year E) d)).
Proof.
  intros Hv.
  pose proof (strptime_date_text false d Hv) as Hp.
  rewrite <- render_text in Hp.
  rewrite (Birthday_parsed E _ d Hp). unfold Date.gtb. split.
  - now intros ->.
  - intros [->|Hlt].
    + now rewrite ltb_irrefl.
    + now rewrite (ltb_asym _ _ Hlt).
Qed.

Lemma Birthday_rejects_only_future_witness :
  Date.valid (mkdate 2024 6 11)
  /\ Birthday (scenario_env false) (str "11.06.2024")
     = Raise (ValueError (InvalidDate DateOfBirthInFuture)).
Proof.
  assert (Hv : Date.valid (mkdate 2024 6 11))
    by (vm_compute; intuition discriminate).
  split; [exact Hv|].
  exact (proj1 (Birthday_rejects_only_future (scenario_env false)
                  (mkdate 2024 6 11) Hv) eq_refl).
Defined.

Lemma length_zero_padded (w : nat) (n : Z) : length (zero_padded w n) = w.
Proof.
  revert n. induction w as [|w IH]; intros n; [reflexivity|].
  cbn [zero_padded]. rewrite length_app, IH. cbn [length]. lia.
Qed.




(** ** The birthday query *)

Lemma upcoming_loop_raises (E : env) (days : Z) (r : Record_)
    (records : list Record_) :
  r ∈ records ->
  (forall acc, exists e, AddressBook.upcoming_step E days acc r = Raise e) ->
  forall acc, exists e, AddressBook.upcoming_loop E days acc records = Raise e.
Proof.
  intros Hin Hstep. induction records as [|r0 records IH]; intros acc.
  - now apply elem_of_nil in Hin.
  - cbn [AddressBook.upcoming_loop].
    destruct (AddressBook.upcoming_step E days acc r0) as [acc'|e] eqn:H0.
    + cbn. apply elem_of_cons in Hin as [->|Hin].
      * destruct (Hstep acc) as [e He]. congruence.
      * now apply IH.
    + cbn. eauto.
Qed.

Lemma replace_year_feb_29 (y ty : Z) :
  _is_leap ty = false ->
  exists e, Date.replace_year (mkdate y 2 29) ty = Raise e
    /\ (MINYEAR <= ty <= MAXYEAR -> e = ValueError DayOutOfRange).
Proof.
  intros Hl. unfold Date.replace_year, Date.new. cbn [month day].
  destruct ((MINYEAR <=? ty) && (ty <=? MAXYEAR)) eqn:Hy; cbn [negb].
  - rewrite days_in_month_l, Hl. cbn. eauto.
  - eexists. split; [reflexivity|]. intros H.
    rewrite andb_false_iff, !Z.leb_gt in Hy. lia.
Qed.

(** C10: the query is not total.  When this year is not a leap year and a
    record of the book has a birthday that reads as a 29th of February, the
    query raises instead of returning a list: the turn of the loop for that
    record fails where it moves the birthday to this year, with the error of
    a day out of range for its month. *)
Theorem upcoming_birthdays_raises_on_feb_29 (E : env) (book : AddressBook.t)
    (days : Z) (r : Record_) (v : pystr) (y : Z) :
  _is_leap (year (today E)) = false ->
  r ∈ Dict.values (AddressBook.data book) ->
  birthday r = Some v ->
  strptime v = Ok (mkdate y 2 29) ->
  (exists e, AddressBook.get_upcoming_birthdays E book days = Raise e)
  /\ (MINYEAR <= year (today E) <= MAXYEAR ->
      forall acc, AddressBook.upcoming_step E days acc r
                  = Raise (ValueError DayOutOfRange)).
Proof.
  intros Hl Hin Hb Hp.
  destruct (replace_year_feb_29 y (year (today E)) Hl) as (e & He & Hrange).
  assert (Hstep : forall acc, AddressBook.upcoming_step E days acc r = Raise e).
  { intros acc. unfold AddressBook.upcoming_step. rewrite Hb, Hp. cbn.
    now rewrite He. }
  split.
  - unfold AddressBook.get_upcoming_birthdays.
    eapply upcoming_loop_raises; [exact Hin|]. intros acc. eauto.
  - intros Hy acc. rewrite Hstep. now rewrite (Hrange Hy).
Qed.

Lemma upcoming_birthdays_raises_on_feb_29_witness :
  _is_leap (year (today feb29_env)) = false
  /\ new_contact feb29_env "Eve" "29.02.2020"
     = (Ok tt, mkRecord (str "Eve") [] (Some (str "29.02.2020")))
  /\ exists e, AddressBook.get_upcoming_birthdays feb29_env feb29_book 7
              = Raise e.
Proof.
  split; [reflexivity|]. split; [reflexivity|].
  refine (proj1 (upcoming_birthdays_raises_on_feb_29 feb29_env feb29_book 7
                   feb29_record (str "29.02.2020") 2020
                   eq_refl _ eq_refl eq_refl)).
  vm_compute. do 2 apply list_elem_of_further. apply list_elem_of_here.
Defined.

(** C1: the scenario of the specification.  Today is Monday 2024-06-10.
    Ann, born 08.06.1990: her birthday of this year is before today, moves
    to 2025, 363 days ahead, and she is left out.  Bob, born 15.06.1985: his
    birthday of this year is a Saturday 5 days ahead, and he is listed for
    the Monday after, 17.06.2024. *)
Theorem scenario_ann_excluded_bob_included (pads_year : bool) :
  Date.weekday (today (scenario_env pads_year)) = 0
  /\ new_contact (scenario_env pads_year) "Ann" "08.06.1990"
     = (Ok tt, mkRecord (str "Ann") [] (Some (str "08.06.1990")))
  /\ new_contact (scenario_env pads_year) "Bob" "15.06.1985"
     = (Ok tt, mkRecord (str "Bob") [] (Some (str "15.06.1985")))
  /\ Date.ltb (mkdate 2024 6 8) (today (scenario_env pads_year)) = true
  /\ Date.sub_days (mkdate 2025 6 8) (today (scenario_env pads_year)) = 363
  /\ Date.weekday (mkdate 2024 6 15) = 5
  /\ Date.sub_days (mkdate 2024 6 15) (today (scenario_env pads_year)) = 5
  /\ AddressBook.adjust_for_weekend (mkdate 2024 6 15) = Ok (mkdate 2024 6 17)
  /\ AddressBook.get_upcoming_birthdays (scenario_env pads_year)
       (scenario_book (scenario_env pads_year)) 7
     = Ok [AddressBook.mkEntry (str "Bob") (str "17.06.2024")]
  /\ AddressBook.get_upcoming_birthdays (scenario_env pads_year)
       (AddressBook.add_record (AddressBook.mk [])
          (snd (new_contact (scenario_env pads_year) "Ann" "08.06.1990"))) 7
     = Ok [].
Proof. destruct pads_year; vm_compute; repeat split; reflexivity. Qed.

(** * Further properties *)

(** ** The book as a dictionary *)

Lemma get_None_keys {V} (k : pystr) (d : Dict.dict V) :
  Dict.get k d = None <-> k ∉ Dict.keys d.
Proof.
  unfold Dict.keys. induction d as [|[k' v'] d IH]; cbn [Dict.get map fst].
  - split; [intros _; apply not_elem_of_nil | reflexivity].
  - rewrite not_elem_of_cons. destruct (eqb k' k) eqn:Hk.
    + apply eqb_eq in Hk. split; [discriminate | intros [H _]; congruence].
    + apply eqb_neq in Hk. rewrite IH. split; [intros H; split; congruence|tauto].
Qed.

Lemma setitem_absent {V} (k : pystr) (v : V) (d : Dict.dict V) :
  Dict.get k d = None -> Dict.setitem k v d = d ++ [(k, v)].
Proof.
  induction d as [|[k' v'] d IH]; cbn [Dict.get Dict.setitem app];
    [reflexivity|].
  destruct (eqb k' k); [discriminate|]. intros H. now rewrite IH.
Qed.

Lemma setitem_same {V} (k : pystr) (v : V) (d : Dict.dict V) :
  Dict.get k d = Some v -> Dict.setitem k v d = d.
Proof.
  induction d as [|[k' v'] d IH]; cbn [Dict.get Dict.setitem]; [discriminate|].
  destruct (eqb k' k); [now intros [= ->]|]. intros H. now rewrite IH.
Qed.

Lemma delitem_absent {V} (k : pystr) (d : Dict.dict V) :
  Dict.get k d = None -> Dict.delitem k d = d.
Proof.
  induction d as [|[k' v'] d IH]; cbn [Dict.get Dict.delitem]; [reflexivity|].
  destruct (eqb k' k); [discriminate|]. intros H. now rewrite IH.
Qed.

Lemma get_delitem_ne {V} (k k0 : pystr) (d : Dict.dict V) :
  k0 <> k -> Dict.get k0 (Dict.delitem k d) = Dict.get k0 d.
Proof.
  intros Hne. induction d as [|[k' v'] d IH]; cbn [Dict.get Dict.delitem];
    [reflexivity|].
  destruct (eqb k' k) eqn:Hk; cbn [Dict.get].
  - apply eqb_eq in Hk. subst k'.
    now replace (eqb k k0) with false by (symmetry; apply eqb_neq; congruence).
  - now rewrite IH.
Qed.

Lemma filter_all_true {A} (P : A -> Prop) `{forall x, Decision (P x)}
    (l : list A) :
  (forall x, x ∈ l -> P x) -> filter P l = l.
Proof.
  induction l as [|x l IH]; intros Hall; [reflexivity|].
  rewrite filter_cons_True by (apply Hall; left).
  f_equal. apply IH. intros y Hy. apply Hall. now right.
Qed.

Lemma keys_delitem {V} (k : pystr) (d : Dict.dict V) :
  NoDup (Dict.keys d) ->
  Dict.keys (Dict.delitem k d) = filter (fun k' => k' <> k) (Dict.keys d).
Proof.
  unfold Dict.keys.
  induction d as [|[k' v'] d IH]; cbn [Dict.delitem map fst]; [reflexivity|].
  intros Hnd. apply NoDup_cons in Hnd as [Hk' Hnd].
  destruct (eqb k' k) eqn:Hk.
  - apply eqb_eq in Hk. subst k'. rewrite filter_cons_False by tauto.
    symmetry. apply filter_all_true. intros x Hx ->. contradiction.
  - apply eqb_neq in Hk. rewrite filter_cons_True by exact Hk.
    cbn [map fst]. now rewrite IH.
Qed.

Lemma keys_setitem {V} (k : pystr) (v : V) (d : Dict.dict V) :
  Dict.keys (Dict.setitem k v d)
  = match Dict.get k d with
    | Some _ => Dict.keys d
    | None => Dict.keys d ++ [k]
    end.
Proof.
  destruct (Dict.get k d) as [old|] eqn:Hg.
  - eapply keys_setitem_present, Hg.
  - rewrite setitem_absent by exact Hg. unfold Dict.keys.
    now rewrite map_app.
Qed.

(** X1: a record with a new name goes after the records of the book, which
    stay as they were, and [find] returns it. *)
Theorem add_record_new_name_appends (book : AddressBook.t) (record : Record_) :
  AddressBook.find book (name record) = None ->
  AddressBook.data (AddressBook.add_record book record)
  = AddressBook.data book ++ [(name record, record)]
  /\ AddressBook.find (AddressBook.add_record book record) (name record)
     = Some record
  /\ (forall other, other <> name record ->
        AddressBook.find (AddressBook.add_record book record) other
        = AddressBook.find book other).
Proof.
  unfold AddressBook.find, AddressBook.add_record. cbn [AddressBook.data].
  intros Hnew. split; [now apply setitem_absent|].
  split; [apply get_setitem_eq|].
  intros other Hne. now apply get_setitem_ne.
Qed.

Lemma add_record_new_name_appends_witness :
  AddressBook.find ann_book (str "Bob") = None
  /\ AddressBook.data
       (AddressBook.add_record ann_book (Record_init (str "Bob")))
     = AddressBook.data ann_book ++ [(str "Bob", Record_init (str "Bob"))].
Proof.
  split; [reflexivity|].
  exact (proj1 (add_record_new_name_appends ann_book
                  (Record_init (str "Bob")) eq_refl)).
Defined.

(** X2: [delete] of a name that the book does not hold changes nothing. *)
Theorem delete_absent_changes_nothing (book : AddressBook.t) (n : pystr) :
  AddressBook.find book n = None -> AddressBook.delete book n = book.
Proof.
  unfold AddressBook.find, AddressBook.delete, Dict.contains.
  intros H. now rewrite H.
Qed.

Lemma delete_absent_changes_nothing_witness :
  AddressBook.find ann_book (str "Bob") = None
  /\ AddressBook.delete ann_book (str "Bob") = ann_book.
Proof.
  split; [reflexivity|].
  exact (delete_absent_changes_nothing ann_book (str "Bob") eq_refl).
Defined.

(** X3: in a book whose names are all different, [delete] takes the record
    of the name out: [find] no longer finds it, the other names keep their
    records, and the remaining names keep their order. *)
Theorem delete_removes_the_name (book : AddressBook.t) (n : pystr) :
  NoDup (Dict.keys (AddressBook.data book)) ->
  AddressBook.find (AddressBook.delete book n) n = None
  /\ (forall other, other <> n ->
        AddressBook.find (AddressBook.delete book n) other
        = AddressBook.find book other)
  /\ Dict.keys (AddressBook.data (AddressBook.delete book n))
     = filter (fun k => k <> n) (Dict.keys (AddressBook.data book)).
Proof.
  intros Hnd. unfold AddressBook.find, AddressBook.delete, Dict.contains.
  destruct (Dict.get n (AddressBook.data book)) as [old|] eqn:Hg;
    cbn [AddressBook.data].
  - split; [|split].
    + apply get_None_keys. rewrite keys_delitem by exact Hnd.
      rewrite list_elem_of_filter. tauto.
    + intros other Hne. now apply get_delitem_ne.
    + now apply keys_delitem.
  - split; [exact Hg|]. split; [reflexivity|].
    symmetry. apply filter_all_true. intros x Hx ->.
    now apply get_None_keys in Hg.
Qed.

Lemma delete_removes_the_name_witness :
  NoDup (Dict.keys (AddressBook.data (scenario_book (scenario_env false))))
  /\ AddressBook.find
       (AddressBook.delete (scenario_book (scenario_env false)) (str "Ann"))
       (str "Ann") = None.
Proof.
  assert (Hnd : NoDup (Dict.keys
             (AddressBook.data (scenario_book (scenario_env false))))).
  { vm_compute. apply NoDup_cons. split.
    - rewrite list_elem_of_singleton. discriminate.
    - apply NoDup_singleton. }
  split; [exact Hnd|].
  exact (proj1 (delete_removes_the_name _ (str "Ann") Hnd)).
Defined.

Lemma delitem_app_last {V} (k : pystr) (v : V) (d : Dict.dict V) :
  Dict.get k d = None -> Dict.delitem k (d ++ [(k, v)]) = d.
Proof.
  induction d as [|[k' v'] d IH]; cbn [Dict.get Dict.delitem app].
  - now rewrite eqb_refl.
  - destruct (eqb k' k); [discriminate|]. intros H. now rewrite IH.
Qed.

(** X5: adding a record with a new name and deleting that name gives the
    book back. *)
Theorem add_record_then_delete (book : AddressBook.t) (record : Record_) :
  AddressBook.find book (name record) = None ->
  AddressBook.delete (AddressBook.add_record book record) (name record)
  = book.
Proof.
  unfold AddressBook.find, AddressBook.delete, AddressBook.add_record,
    Dict.contains.
  cbn [AddressBook.data]. intros Hnew.
  rewrite get_setitem_eq, setitem_absent by exact Hnew.
  rewrite delitem_app_last by exact Hnew. now destruct book.
Qed.

Lemma add_record_then_delete_witness :
  AddressBook.find ann_book (str "Bob") = None
  /\ AddressBook.delete
       (AddressBook.add_record ann_book (Record_init (str "Bob")))
       (str "Bob") = ann_book.
Proof.
  split; [reflexivity|].
  exact (add_record_then_delete ann_book (Record_init (str "Bob")) eq_refl).
Defined.

(** ** Records: what the methods keep *)

Lemma edit_phone_loop_shape (old new : pystr) (ps ps' : list pystr) :
  edit_phone_loop old new ps = Some ps' ->
  length ps' = length ps
  /\ forall j p, ps !! j = Some p -> p <> old -> ps' !! j = Some p.
Proof.
  revert ps'. induction ps as [|p0 ps IH]; intros ps'; cbn [edit_phone_loop];
    [discriminate|].
  destruct (eqb p0 old) eqn:Hp.
  - intros [= <-]. split; [reflexivity|].
    intros [|j] p Hj Hne; [|exact Hj].
    apply eqb_eq in Hp. cbn in Hj. congruence.
  - destruct (edit_phone_loop old new ps) as [ps1|]; [|discriminate].
    cbn. intros [= <-]. destruct (IH ps1 eq_refl) as [Hlen Hkeep].
    split; [cbn; now rewrite Hlen|].
    intros [|j] p Hj Hne; [exact Hj|]. cbn. now apply Hkeep.
Qed.

(** X6: whatever its outcome, [edit_phone] leaves the name, the birthday
    and the number of phones of the record as they were, and every phone
    that is not the old number stays at its place. *)
Theorem edit_phone_keeps_the_rest (r : Record_) (old new : pystr) :
  name (snd (edit_phone old new r)) = name r
  /\ birthday (snd (edit_phone old new r)) = birthday r
  /\ length (phones (snd (edit_phone old new r))) = length (phones r)
  /\ forall j p, phones r !! j = Some p -> p <> old ->
       phones (snd (edit_phone old new r)) !! j = Some p.
Proof.
  unfold edit_phone, mbind, method_bind, m_bind, lift, get_self.
  destruct (Phone new) as [v|e]; [|cbn; auto].
  destruct (edit_phone_loop old v (phones r)) as [ps|] eqn:Hl; [|cbn; auto].
  cbn. destruct (edit_phone_loop_shape old v (phones r) ps Hl). auto.
Qed.

Lemma remove_skipping_pair (phone : pystr) (P : list pystr -> Prop) :
  P [] ->
  (forall p, P [p]) ->
  (forall p q l, P l -> P (q :: l) -> P (p :: q :: l)) ->
  forall l, P l.
Proof.
  intros Hnil Hone Hstep l.
  assert (H : P l /\ forall q, P (q :: l)).
  { induction l as [|x l [IH1 IH2]]; [split; auto|].
    split; [apply IH2|]. intros q. apply Hstep; auto. }
  apply H.
Qed.

Lemma remove_skipping_cons2 (phone p q : pystr) (l : list pystr) :
  remove_skipping phone (p :: q :: l)
  = if eqb p phone then q :: remove_skipping phone l
    else p :: remove_skipping phone (q :: l).
Proof. reflexivity. Qed.

Lemma remove_skipping_sublist (phone : pystr) (ps : list pystr) :
  remove_skipping phone ps `sublist_of` ps.
Proof.
  induction ps as [| p | p q l IH1 IH2] using (remove_skipping_pair phone).
  - constructor.
  - cbn. destruct (eqb p phone); [apply sublist_nil_l | reflexivity].
  - rewrite remove_skipping_cons2. destruct (eqb p phone).
    + apply sublist_cons, sublist_skip, IH1.
    + apply sublist_skip, IH2.
Qed.

Lemma remove_skipping_keeps_others (phone : pystr) (ps : list pystr) :
  filter (fun p => p <> phone) (remove_skipping phone ps)
  = filter (fun p => p <> phone) ps.
Proof.
  induction ps as [| p | p q l IH1 IH2] using (remove_skipping_pair phone).
  - reflexivity.
  - cbn [remove_skipping]. destruct (eqb p phone) eqn:Hp; [|reflexivity].
    apply eqb_eq in Hp. now rewrite filter_cons_False by tauto.
  - rewrite remove_skipping_cons2. destruct (eqb p phone) eqn:Hp.
    + apply eqb_eq in Hp.
      rewrite (filter_cons_False _ p) by tauto.
      destruct (decide (q <> phone)) as [Hq|Hq].
      * rewrite !(filter_cons_True _ q) by exact Hq. now rewrite IH1.
      * rewrite !(filter_cons_False _ q) by exact Hq. exact IH1.
    + apply eqb_neq in Hp. rewrite !(filter_cons_True _ p) by exact Hp.
      now rewrite IH2.
Qed.

(** X7: [remove_phone] never raises and never touches the name or the
    birthday; the phones it leaves are phones of the old list in their old
    order, and every phone that is not the given number is among them. *)
Theorem remove_phone_keeps_the_rest (r : Record_) (phone : pystr) :
  fst (remove_phone phone r) = Ok tt
  /\ name (snd (remove_phone phone r)) = name r
  /\ birthday (snd (remove_phone phone r)) = birthday r
  /\ phones (snd (remove_phone phone r)) `sublist_of` phones r
  /\ filter (fun p => p <> phone) (phones (snd (remove_phone phone r)))
     = filter (fun p => p <> phone) (phones r).
Proof.
  rewrite remove_phone_skipping. cbn [fst snd name birthday phones].
  repeat split.
  - apply remove_skipping_sublist.
  - apply remove_skipping_keeps_others.
Qed.

Lemma remove_skipping_first (phone : pystr) (pre post : list pystr) :
  phone ∉ pre ->
  remove_skipping phone (pre ++ phone :: post)
  = pre ++ match post with
           | [] => []
           | q :: post' => q :: remove_skipping phone post'
           end.
Proof.
  induction pre as [|p pre IH]; intros Hpre; cbn [app remove_skipping].
  - now rewrite eqb_refl.
  - apply not_elem_of_cons in Hpre as [Hne Hpre].
    replace (eqb p phone) with false by (symmetry; apply eqb_neq; congruence).
    now rewrite IH.
Qed.

(** X8: when the number is among the phones, [remove_phone] removes its
    first entry: the phones before that entry stay, what follows them is
    taken from the phones after it, and the list gets shorter. *)
Theorem remove_phone_removes_first (r : Record_) (phone : pystr)
    (pre post : list pystr) :
  phones r = pre ++ phone :: post ->
  phone ∉ pre ->
  exists rest,
    phones (snd (remove_phone phone r)) = pre ++ rest
    /\ rest `sublist_of` post
    /\ (length (phones (snd (remove_phone phone r))) < length (phones r))%nat.
Proof.
  intros Hps Hpre. rewrite remove_phone_skipping. cbn [snd phones].
  rewrite Hps, remove_skipping_first by exact Hpre.
  eexists. split; [reflexivity|].
  assert (Hsub : match post with
                 | [] => []
                 | q :: post' => q :: remove_skipping phone post'
                 end `sublist_of` post).
  { destruct post as [|q post']; [constructor|].
    apply sublist_skip, remove_skipping_sublist. }
  split; [exact Hsub|].
  apply sublist_length in Hsub. rewrite !length_app. cbn [length]. lia.
Qed.

Lemma remove_phone_removes_first_witness :
  phones triple_record = [] ++ triple_phone :: [triple_phone; triple_phone]
  /\ (triple_phone ∉ ([] : list pystr))
  /\ exists rest,
       phones (snd (remove_phone triple_phone triple_record)) = [] ++ rest
       /\ rest `sublist_of` [triple_phone; triple_phone].
Proof.
  split; [reflexivity|]. split; [apply not_elem_of_nil|].
  destruct (remove_phone_removes_first triple_record triple_phone []
              [triple_phone; triple_phone] eq_refl (not_elem_of_nil _))
    as (rest & H1 & H2 & _).
  exists rest. auto.
Defined.

Lemma remove_skipping_separated (phone : pystr) (ps : list pystr) :
  (forall i, ps !! i = Some phone -> ps !! S i <> Some phone) ->
  remove_skipping phone ps = filter (fun p => p <> phone) ps.
Proof.
  induction ps as [| p | p q l IH1 IH2] using (remove_skipping_pair phone);
    intros Hsep.
  - reflexivity.
  - cbn [remove_skipping]. destruct (eqb p phone) eqn:Hp.
    + apply eqb_eq in Hp. now rewrite filter_cons_False by tauto.
    + apply eqb_neq in Hp. now rewrite filter_cons_True by exact Hp.
  - rewrite remove_skipping_cons2. destruct (eqb p phone) eqn:Hp.
    + apply eqb_eq in Hp. subst p.
      assert (Hq : q <> phone).
      { intros ->. now apply (Hsep 0%nat). }
      rewrite filter_cons_False by tauto.
      rewrite filter_cons_True by exact Hq.
      rewrite IH1; [reflexivity|].
      intros i Hi. apply (Hsep (S (S i))). exact Hi.
    + apply eqb_neq in Hp. rewrite filter_cons_True by exact Hp.
      rewrite IH2; [reflexivity|].
      intros i Hi. apply (Hsep (S i)). exact Hi.
Qed.

(** X9: when no two entries next to each other both hold the number,
    [remove_phone] removes every entry that holds it. *)
Theorem remove_phone_all_when_apart (r : Record_) (phone : pystr) :
  (forall i, phones r !! i = Some phone -> phones r !! S i <> Some phone) ->
  phones (snd (remove_phone phone r))
  = filter (fun p => p <> phone) (phones r)
  /\ phone ∉ phones (snd (remove_phone phone r)).
Proof.
  intros Hsep. rewrite remove_phone_skipping. cbn [snd phones].
  rewrite remove_skipping_separated by exact Hsep.
  split; [reflexivity|]. rewrite list_elem_of_filter. tauto.
Qed.

Lemma remove_phone_all_when_apart_witness :
  phones (snd (remove_phone (str "0501234567")
     (mkRecord (str "Ann")
        [str "0501234567"; str "0670000000"; str "0501234567"] None)))
  = [str "0670000000"].
Proof.
  refine (proj1 (remove_phone_all_when_apart
            (mkRecord (str "Ann")
               [str "0501234567"; str "0670000000"; str "0501234567"] None)
            (str "0501234567") _)).
  intros [|[|[|i]]]; cbn; discriminate.
Defined.

(** X10: adding a valid number that the record does not have and removing
    it again gives the record back. *)
Theorem add_phone_then_remove (r : Record_) (phone : pystr) :
  Phone phone = Ok phone ->
  phone ∉ phones r ->
  (_ ← add_phone phone; remove_phone phone) r = (Ok tt, r).
Proof.
  intros Hok Habs. unfold mbind at 1. unfold method_bind, m_bind.
  rewrite (add_phone_ok r phone Hok), remove_phone_skipping.
  cbn [name phones birthday].
  rewrite remove_skipping_first by exact Habs.
  rewrite app_nil_r. now destruct r.
Qed.

Lemma add_phone_then_remove_witness :
  Phone (str "0501234567") = Ok (str "0501234567")
  /\ (_ ← add_phone (str "0501234567"); remove_phone (str "0501234567"))
       ann_new = (Ok tt, ann_new).
Proof.
  split; [reflexivity|].
  refine (add_phone_then_remove ann_new (str "0501234567") eq_refl _).
  cbn. rewrite list_elem_of_singleton. discriminate.
Defined.

(** ** The next weekday *)

Lemma add_days_ok (d r : date) (k : Z) :
  Date.valid d -> Date.add_days d k = Ok r ->
  Date.valid r /\ toordinal r = toordinal d + k.
Proof.
  intros Hv. unfold Date.add_days.
  destruct ((0 <? toordinal d + k) && (toordinal d + k <=? _MAXORDINAL))
    eqn:Hin; [|discriminate].
  intros [= <-]. rewrite andb_true_iff, Z.ltb_lt, Z.leb_le in Hin.
  split; [apply fromordinal_valid | apply toordinal_fromordinal]; lia.
Qed.

Lemma add_days_cases (d : date) (k : Z) :
  (exists r, Date.add_days d k = Ok r)
  \/ (Date.add_days d k = Raise OverflowError
      /\ (toordinal d + k <= 0 \/ _MAXORDINAL < toordinal d + k)).
Proof.
  unfold Date.add_days.
  destruct ((0 <? toordinal d + k) && (toordinal d + k <=? _MAXORDINAL))
    eqn:Hin; [left; eauto|].
  right. split; [reflexivity|].
  rewrite andb_false_iff, Z.ltb_ge, Z.leb_gt in Hin. lia.
Qed.

(** X11: for a weekday 0..6, [find_next_weekday] returns the first date
    after the start date that falls on that weekday, 1 to 7 days later (7
    when the start date is on that weekday itself); it raises
    [OverflowError], and nothing else, exactly when no date up to
    9999-12-31 after the start date falls on that weekday. *)
Theorem find_next_weekday_within_a_week (d : date) (w : Z) :
  Date.valid d -> 0 <= w <= 6 ->
  (exists r, AddressBook.find_next_weekday d w = Ok r
     /\ Date.valid r /\ Date.weekday r = w
     /\ Date.ltb d r = true
     /\ 1 <= Date.sub_days r d <= 7
     /\ (Date.weekday d = w -> Date.sub_days r d = 7)
     /\ forall x, Date.valid x -> Date.ltb d x = true ->
          Date.weekday x = w -> Date.ltb x r = false)
  \/ (AddressBook.find_next_weekday d w = Raise OverflowError
      /\ forall x, Date.valid x -> Date.ltb d x = true ->
           Date.weekday x <> w).
Proof.
  intros Hv Hw. unfold AddressBook.find_next_weekday.
  pose proof (weekday_range d) as Hr.
  pose proof (toordinal_range d Hv) as Hord.
  set (k := if w - Date.weekday d <=? 0 then w - Date.weekday d + 7
            else w - Date.weekday d).
  assert (Hk : 1 <= k <= 7
               /\ (toordinal d + k + 6) mod 7 = w
               /\ (Date.weekday d = w -> k = 7)
               /\ forall o, toordinal d < o < toordinal d + k ->
                    (o + 6) mod 7 <> w).
  { unfold k. destruct (w - Date.weekday d <=? 0) eqn:Hle.
    - apply Z.leb_le in Hle. unfold Date.weekday in *.
      repeat split; try (Z.div_mod_to_equations; lia).
      intros o Ho. Z.div_mod_to_equations. lia.
    - apply Z.leb_gt in Hle. unfold Date.weekday in *.
      repeat split; try (Z.div_mod_to_equations; lia).
      intros o Ho. Z.div_mod_to_equations. lia. }
  clearbody k. destruct Hk as (Hk1 & Hk2 & Hk3 & Hk4).
  destruct (add_days_cases d k) as [[r Hadd]|[Hadd Hover]].
  - left. exists r. split; [exact Hadd|].
    destruct (add_days_ok d r k Hv Hadd) as [Hvr Hor].
    split; [exact Hvr|]. unfold Date.sub_days. rewrite Hor.
    split; [unfold Date.weekday; now rewrite Hor|].
    split; [apply ltb_iff_toordinal; [assumption..|]; lia|].
    split; [lia|]. split; [intros Hwd; rewrite Hk3; [lia | exact Hwd]|].
    intros x Hvx Hdx Hwx.
    apply ltb_iff_toordinal in Hdx; [|assumption..].
    destruct (Date.ltb x r) eqn:Hxr; [|reflexivity].
    apply ltb_iff_toordinal in Hxr; [|assumption..].
    exfalso. apply (Hk4 (toordinal x)); [lia | exact Hwx].
  - right. split; [exact Hadd|].
    intros x Hvx Hdx.
    apply ltb_iff_toordinal in Hdx; [|assumption..].
    pose proof (toordinal_range x Hvx) as Hox.
    apply (Hk4 (toordinal x)). lia.
Qed.

Lemma find_next_weekday_within_a_week_witness :
  Date.valid (mkdate 9999 12 31)
  /\ AddressBook.find_next_weekday (mkdate 9999 12 31) 4 = Raise OverflowError
  /\ Date.valid (mkdate 9999 12 30)
  /\ exists r, AddressBook.find_next_weekday (mkdate 9999 12 30) 4 = Ok r
       /\ Date.weekday r = 4 /\ Date.sub_days r (mkdate 9999 12 30) = 1.
Proof.
  assert (Hv : Date.valid (mkdate 9999 12 31))
    by (vm_compute; intuition discriminate).
  assert (Hv' : Date.valid (mkdate 9999 12 30))
    by (vm_compute; intuition discriminate).
  split; [exact Hv|]. split.
  - destruct (find_next_weekday_within_a_week (mkdate 9999 12 31) 4 Hv
                ltac:(lia)) as [(r & H & _)|[H _]].
    + vm_compute in H. discriminate H.
    + exact H.
  - split; [exact Hv'|].
    destruct (find_next_weekday_within_a_week (mkdate 9999 12 30) 4 Hv'
                ltac:(lia)) as [(r & H & _ & Hw & _ & _ & _)|[H _]].
    + exists r. split; [exact H|]. split; [exact Hw|].
      vm_compute in H. injection H as <-. reflexivity.
    + vm_compute in H. discriminate H.
Defined.

(** ** The birthday query: what it returns *)

Lemma adjust_for_weekend_ok (d r : date) :
  Date.valid d -> AddressBook.adjust_for_weekend d = Ok r ->
  Date.valid r /\ Date.weekday r < 5
  /\ 0 <= toordinal r - toordinal d <= 2.
Proof.
  intros Hv. unfold AddressBook.adjust_for_weekend.
  pose proof (weekday_range d) as Hr.
  destruct (5 <=? Date.weekday d) eqn:Hw.
  - apply Z.leb_le in Hw. unfold AddressBook.find_next_weekday.
    replace (0 - Date.weekday d <=? 0) with true
      by (symmetry; apply Z.leb_le; lia).
    intros Hadd. destruct (add_days_ok d r _ Hv Hadd) as [Hvr Hor].
    split; [exact Hvr|]. unfold Date.weekday in *. rewrite Hor.
    Z.div_mod_to_equations. lia.
  - apply Z.leb_gt in Hw. intros [= <-]. split; [exact Hv|]. lia.
Qed.

Lemma adjust_for_weekend_total (d : date) :
  Date.valid d -> exists r, AddressBook.adjust_for_weekend d = Ok r.
Proof.
  intros Hv. unfold AddressBook.adjust_for_weekend.
  destruct (5 <=? Date.weekday d) eqn:Hw; [|eauto].
  apply Z.leb_le in Hw. unfold AddressBook.find_next_weekday.
  pose proof (weekday_range d) as Hr.
  replace (0 - Date.weekday d <=? 0) with true
    by (symmetry; apply Z.leb_le; lia).
  pose proof (toordinal_range d Hv) as Hord.
  destruct (add_days_spec d (0 - Date.weekday d + 7) Hv) as (r & Hadd & _).
  - unfold Date.weekday, _MAXORDINAL in *. Z.div_mod_to_equations. lia.
  - eauto.
Qed.

(** What a turn of the loop that does not raise does to the list. *)
Lemma upcoming_step_ok (E : env) (days : Z) (acc acc' : list AddressBook.entry)
    (r : Record_) :
  AddressBook.upcoming_step E days acc r = Ok acc' ->
  acc' = acc
  \/ exists v c,
       birthday r = Some v
       /\ Date.valid c /\ Date.weekday c < 5
       /\ 0 <= Date.sub_days c (today E) <= days + 2
       /\ acc' = acc ++ [AddressBook.mkEntry (name r)
                           (strftime (libc_pads_year E) c)].
Proof.
  unfold AddressBook.upcoming_step.
  destruct (birthday r) as [v|]; [|intros [= <-]; now left].
  destruct (strptime v) as [b|]; [|discriminate]. cbn.
  destruct (Date.replace_year b (year (today E))) as [b1|] eqn:H1;
    [|discriminate]. cbn.
  assert (Hv1 : Date.valid b1).
  { unfold Date.replace_year in H1. now apply new_ok_valid in H1. }
  destruct (if Date.ltb b1 (today E)
            then Date.replace_year b1 (year (today E) + 1)
            else Ok b1) as [b2|] eqn:H2; [|discriminate]. cbn.
  assert (Hv2 : Date.valid b2).
  { destruct (Date.ltb b1 (today E)).
    - unfold Date.replace_year in H2. now apply new_ok_valid in H2.
    - now injection H2 as <-. }
  destruct ((0 <=? Date.sub_days b2 (today E))
            && (Date.sub_days b2 (today E) <=? days)) eqn:Hwin;
    [|intros [= <-]; now left].
  rewrite andb_true_iff, !Z.leb_le in Hwin.
  destruct (AddressBook.adjust_for_weekend b2) as [c|] eqn:Hadj;
    [|discriminate]. cbn.
  intros [= <-]. right. exists v, c.
  destruct (adjust_for_weekend_ok b2 c Hv2 Hadj) as (Hvc & Hwc & Hoc).
  split; [reflexivity|]. split; [exact Hvc|]. split; [exact Hwc|].
  split; [unfold Date.sub_days in *; lia | reflexivity].
Qed.

Lemma upcoming_loop_ok (E : env) (days : Z) (records : list Record_) :
  forall acc l,
    AddressBook.upcoming_loop E days acc records = Ok l ->
    exists l',
      l = acc ++ l'
      /\ map AddressBook.entry_name l'
         `sublist_of` map name (filter has_birthday records)
      /\ forall e, e ∈ l' ->
           exists c, AddressBook.congratulation_date e
                     = strftime (libc_pads_year E) c
             /\ Date.valid c /\ Date.weekday c < 5
             /\ 0 <= Date.sub_days c (today E) <= days + 2.
Proof.
  induction records as [|r records IH]; intros acc l;
    cbn [AddressBook.upcoming_loop].
  - intros [= <-]. exists []. rewrite app_nil_r.
    split; [reflexivity|]. split; [constructor|].
    intros e He. now apply elem_of_nil in He.
  - intros Hl.
    destruct (AddressBook.upcoming_step E days acc r) as [acc'|] eqn:Hs;
      cbn in Hl; [|discriminate].
    destruct (IH acc' l Hl) as (l' & -> & Hsub & Hall).
    apply upcoming_step_ok in Hs as [->|(v & c & Hb & Hvc & Hwc & Hoc & ->)].
    + exists l'. split; [reflexivity|]. split; [|exact Hall].
      destruct (decide (has_birthday r)) as [Hr|Hr].
      * rewrite filter_cons_True by exact Hr. now apply sublist_cons.
      * now rewrite filter_cons_False by exact Hr.
    + eexists (_ :: l'). split; [now rewrite <- app_assoc|]. split.
      * rewrite filter_cons_True by (unfold has_birthday; congruence).
        cbn [map AddressBook.entry_name]. now apply sublist_skip.
      * intros e He. apply elem_of_cons in He as [->|He]; [|now apply Hall].
        exists c. cbn [AddressBook.congratulation_date]. auto.
Qed.

(** X12: when no record of the book has a birthday, the query returns the
    empty list, whatever the date and the window. *)
Theorem upcoming_birthdays_empty_without_birthdays (E : env)
    (book : AddressBook.t) (days : Z) :
  (forall r, r ∈ Dict.values (AddressBook.data book) -> birthday r = None) ->
  AddressBook.get_upcoming_birthdays E book days = Ok [].
Proof.
  unfold AddressBook.get_upcoming_birthdays.
  generalize (Dict.values (AddressBook.data book)) as records.
  induction records as [|r records IH]; intros Hnone; [reflexivity|].
  cbn [AddressBook.upcoming_loop]. unfold AddressBook.upcoming_step.
  rewrite (Hnone r) by left. cbn. apply IH.
  intros r' Hr'. apply Hnone. now right.
Qed.

Lemma upcoming_birthdays_empty_without_birthdays_witness :
  AddressBook.get_upcoming_birthdays (scenario_env false)
    (AddressBook.add_record ann_book ann_new) 7 = Ok [].
Proof.
  apply upcoming_birthdays_empty_without_birthdays.
  intros r Hr. vm_compute in Hr.
  apply list_elem_of_singleton in Hr. now subst r.
Defined.

(** X13: the entries of the result come in the order of the book: their
    names are names of records that have a birthday, each record used at
    most once, in the order the book holds them. *)
Theorem upcoming_birthdays_in_book_order (E : env) (book : AddressBook.t)
    (days : Z) (l : list AddressBook.entry) :
  AddressBook.get_upcoming_birthdays E book days = Ok l ->
  map AddressBook.entry_name l
  `sublist_of`
  map name (filter has_birthday (Dict.values (AddressBook.data book))).
Proof.
  unfold AddressBook.get_upcoming_birthdays. intros H.
  destruct (upcoming_loop_ok E days _ [] l H) as (l' & -> & Hsub & _).
  exact Hsub.
Qed.

Lemma upcoming_birthdays_in_book_order_witness :
  map AddressBook.entry_name
    [AddressBook.mkEntry (str "Bob") (str "17.06.2024")]
  `sublist_of`
  map name (filter has_birthday
    (Dict.values (AddressBook.data (scenario_book (scenario_env false))))).
Proof.
  exact (upcoming_birthdays_in_book_order (scenario_env false)
           (scenario_book (scenario_env false)) 7 _ eq_refl).
Defined.

(** X14: every congratulation date of the result is the text of a date
    from Monday to Friday that is no earlier than today and at most two
    days after the end of the window. *)
Theorem upcoming_birthdays_on_working_days (E : env) (book : AddressBook.t)
    (days : Z) (l : list AddressBook.entry) :
  AddressBook.get_upcoming_birthdays E book days = Ok l ->
  forall e, e ∈ l ->
    exists c, AddressBook.congratulation_date e
              = strftime (libc_pads_year E) c
      /\ Date.valid c /\ Date.weekday c < 5
      /\ 0 <= Date.sub_days c (today E) <= days + 2.
Proof.
  unfold AddressBook.get_upcoming_birthdays. intros H.
  destruct (upcoming_loop_ok E days _ [] l H) as (l' & -> & _ & Hall).
  exact Hall.
Qed.

Lemma upcoming_birthdays_on_working_days_witness :
  exists c, str "17.06.2024" = strftime false c
    /\ Date.valid c /\ Date.weekday c < 5
    /\ 0 <= Date.sub_days c (mkdate 2024 6 10) <= 7 + 2.
Proof.
  refine (upcoming_birthdays_on_working_days (scenario_env false)
            (scenario_book (scenario_env false)) 7 _ eq_refl
            (AddressBook.mkEntry (str "Bob") (str "17.06.2024")) _).
  apply list_elem_of_singleton. reflexivity.
Defined.

Lemma replace_year_ok (b : date) (y : Z) :
  Date.valid b -> MINYEAR <= y <= MAXYEAR ->
  ~ (month b = 2 /\ day b = 29) ->
  Date.replace_year b y = Ok (mkdate y (month b) (day b)).
Proof.
  intros (_ & Hm & Hd) Hy Hfeb. unfold Date.replace_year, Date.new.
  replace ((MINYEAR <=? y) && (y <=? MAXYEAR)) with true
    by (symmetry; apply andb_true_iff; rewrite !Z.leb_le; lia).
  replace ((1 <=? month b) && (month b <=? 12)) with true
    by (symmetry; apply andb_true_iff; rewrite !Z.leb_le; lia).
  replace ((1 <=? day b) && (day b <=? _days_in_month y (month b)))
    with true; [reflexivity|].
  symmetry. apply andb_true_iff. rewrite !Z.leb_le.
  split; [lia|]. rewrite days_in_month_l in *.
  set (m := month b) in *. set (dd := day b) in *. clearbody m dd.
  revert Hd. generalize (_is_leap (year b)), (_is_leap y). intros l1 l2 Hd.
  each_month Hm; destruct l1, l2;
    repeat match goal with
           | H : context [dim_l ?l ?k] |- _ =>
               let n := eval vm_compute in (dim_l l k) in
               change (dim_l l k) with n in H
           | |- context [dim_l ?l ?k] =>
               let n := eval vm_compute in (dim_l l k) in
               change (dim_l l k) with n
           end; lia.
Qed.

Lemma upcoming_step_total (E : env) (days : Z) (acc : list AddressBook.entry)
    (r : Record_) :
  Date.valid (today E) -> year (today E) < MAXYEAR ->
  (forall v, birthday r = Some v ->
     exists b, strptime v = Ok b /\ ~ (month b = 2 /\ day b = 29)) ->
  exists acc', AddressBook.upcoming_step E days acc r = Ok acc'.
Proof.
  intros Ht Hy Hb. unfold AddressBook.upcoming_step.
  destruct (birthday r) as [v|]; [|eauto].
  destruct (Hb v eq_refl) as (b & Hp & Hfeb). rewrite Hp. cbn.
  pose proof (strptime_ok_valid v b Hp) as Hvb.
  pose proof Ht as (Hty & _). unfold MINYEAR, MAXYEAR in *.
  rewrite replace_year_ok by (unfold MINYEAR, MAXYEAR; auto; lia). cbn.
  set (b1 := mkdate (year (today E)) (month b) (day b)).
  assert (Hv1 : Date.valid b1).
  { eapply (new_ok_valid (year (today E)) (month b) (day b) b1).
    apply (replace_year_ok b (year (today E)) Hvb);
      unfold MINYEAR, MAXYEAR; auto. }
  assert (H2 : exists b2, (if Date.ltb b1 (today E)
                           then Date.replace_year b1 (year (today E) + 1)
                           else Ok b1) = Ok b2 /\ Date.valid b2).
  { destruct (Date.ltb b1 (today E)); [|eauto].
    pose proof (replace_year_ok b1 (year (today E) + 1) Hv1
                  ltac:(unfold MINYEAR, MAXYEAR; lia) Hfeb) as Hr.
    eexists. split; [exact Hr|].
    unfold Date.replace_year in Hr. now apply new_ok_valid in Hr. }
  destruct H2 as (b2 & -> & Hv2). cbn.
  destruct ((0 <=? Date.sub_days b2 (today E))
            && (Date.sub_days b2 (today E) <=? days)); [|eauto].
  destruct (adjust_for_weekend_total b2 Hv2) as [c ->]. cbn. eauto.
Qed.

(** X15: the query returns a list, and does not raise, on every day before
    the year 9999 when each stored birthday reads as a date other than a
    29th of February. *)
Theorem upcoming_birthdays_total_without_feb_29 (E : env)
    (book : AddressBook.t) (days : Z) :
  Date.valid (today E) -> year (today E) < MAXYEAR ->
  (forall r v, r ∈ Dict.values (AddressBook.data book) ->
     birthday r = Some v ->
     exists b, strptime v = Ok b /\ ~ (month b = 2 /\ day b = 29)) ->
  exists l, AddressBook.get_upcoming_birthdays E book days = Ok l.
Proof.
  intros Ht Hy. unfold AddressBook.get_upcoming_birthdays.
  generalize (@nil AddressBook.entry) as acc.
  generalize (Dict.values (AddressBook.data book)) as records.
  induction records as [|r records IH]; intros acc Hall;
    cbn [AddressBook.upcoming_loop]; [eauto|].
  destruct (upcoming_step_total E days acc r Ht Hy) as [acc' ->].
  - intros v Hv. apply (Hall r v); [left | exact Hv].
  - cbn. apply IH. intros r' v Hr'. apply Hall. now right.
Qed.

Lemma upcoming_birthdays_total_without_feb_29_witness :
  Date.valid (today (scenario_env false))
  /\ exists l, AddressBook.get_upcoming_birthdays (scenario_env false)
                 (scenario_book (scenario_env false)) 7 = Ok l.
Proof.
  assert (Hv : Date.valid (today (scenario_env false)))
    by (vm_compute; intuition discriminate).
  split; [exact Hv|].
  apply (upcoming_birthdays_total_without_feb_29 _ _ 7 Hv);
    [vm_compute; reflexivity|].
  intros r v Hr Hb. vm_compute in Hr.
  apply elem_of_cons in Hr as [->|Hr].
  - injection Hb as <-. eexists. split; [vm_compute; reflexivity|].
    cbn. lia.
  - apply list_elem_of_singleton in Hr as ->.
    injection Hb as <-. eexists. split; [vm_compute; reflexivity|].
    cbn. lia.
Defined.

Lemma leap_next_year (y : Z) : _is_leap y = true -> _is_leap (y + 1) = false.
Proof.
  intros H. apply is_leap_spec in H as [H4 _].
  destruct (_is_leap (y + 1)) eqn:Hn; [|reflexivity].
  apply is_leap_spec in Hn as [Hn _]. exfalso.
  Z.div_mod_to_equations. lia.
Qed.

(** X16: in a leap year too the query raises for a birthday on a 29th of
    February, once that day has passed: the birthday of this year is before
    today, and moving it to next year fails. *)
Theorem upcoming_birthdays_raises_after_feb_29 (E : env)
    (book : AddressBook.t) (days : Z) (r : Record_) (v : pystr) (y : Z) :
  _is_leap (year (today E)) = true ->
  Date.ltb (mkdate (year (today E)) 2 29) (today E) = true ->
  r ∈ Dict.values (AddressBook.data book) ->
  birthday r = Some v ->
  strptime v = Ok (mkdate y 2 29) ->
  exists e, AddressBook.get_upcoming_birthdays E book days = Raise e.
Proof.
  intros Hl Hlt Hin Hb Hp. unfold AddressBook.get_upcoming_birthdays.
  eapply upcoming_loop_raises; [exact Hin|]. intros acc.
  unfold AddressBook.upcoming_step. rewrite Hb, Hp. cbn.
  destruct (Date.replace_year (mkdate y 2 29) (year (today E)))
    as [b1|e] eqn:H1; [|cbn; eauto]. cbn.
  unfold Date.replace_year in H1. cbn [month day] in H1.
  apply new_ok_valid in H1 as [-> _]. rewrite Hlt.
  destruct (replace_year_feb_29 (year (today E)) (year (today E) + 1)
              (leap_next_year _ Hl)) as (e & He & _).
  rewrite He. cbn. eauto.
Qed.

Lemma upcoming_birthdays_raises_after_feb_29_witness :
  _is_leap 2024 = true
  /\ exists e, AddressBook.get_upcoming_birthdays (scenario_env false)
       (AddressBook.add_record (scenario_book (scenario_env false))
          feb29_record) 7 = Raise e.
Proof.
  split; [reflexivity|].
  refine (upcoming_birthdays_raises_after_feb_29 (scenario_env false) _ 7
            feb29_record (str "29.02.2020") 2020
            eq_refl eq_refl _ eq_refl eq_refl).
  vm_compute. do 2 apply list_elem_of_further. apply list_elem_of_here.
Defined.

Lemma upcoming_loop_keeps (E : env) (days : Z) (records : list Record_) :
  forall acc l e,
    AddressBook.upcoming_loop E days acc records = Ok l -> e ∈ acc -> e ∈ l.
Proof.
  intros acc l e H He.
  destruct (upcoming_loop_ok E days records acc l H) as (l' & -> & _).
  apply elem_of_app. now left.
Qed.

(** X17: a birthday that falls today, on a day from Monday to Friday, is in
    the result with today's date, for every window of 0 days or more. *)
Theorem upcoming_birthdays_include_today (E : env) (book : AddressBook.t)
    (days : Z) (l : list AddressBook.entry) (r : Record_) (v : pystr)
    (b : date) :
  Date.valid (today E) -> Date.weekday (today E) < 5 -> 0 <= days ->
  r ∈ Dict.values (AddressBook.data book) ->
  birthday r = Some v -> strptime v = Ok b ->
  month b = month (today E) -> day b = day (today E) ->
  AddressBook.get_upcoming_birthdays E book days = Ok l ->
  AddressBook.mkEntry (name r) (strftime (libc_pads_year E) (today E)) ∈ l.
Proof.
  intros Ht Hw Hdays Hin Hb Hp Hm Hd.
  unfold AddressBook.get_upcoming_birthdays.
  generalize (@nil AddressBook.entry) as acc.
  revert Hin. generalize (Dict.values (AddressBook.data book)) as records.
  induction records as [|r0 records IH]; intros Hin acc;
    [now apply elem_of_nil in Hin|].
  cbn [AddressBook.upcoming_loop]. intros Hl.
  destruct (AddressBook.upcoming_step E days acc r0) as [acc'|] eqn:Hs;
    cbn in Hl; [|discriminate].
  apply elem_of_cons in Hin as [<-|Hin]; [|now apply (IH Hin acc')].
  apply (upcoming_loop_keeps E days records acc' l _ Hl).
  unfold AddressBook.upcoming_step in Hs. rewrite Hb, Hp in Hs. cbn in Hs.
  assert (Hrep : Date.replace_year b (year (today E)) = Ok (today E)).
  { unfold Date.replace_year. rewrite Hm, Hd. now apply new_valid. }
  rewrite Hrep in Hs. cbn in Hs. rewrite ltb_irrefl in Hs. cbn in Hs.
  unfold Date.sub_days in Hs. rewrite Z.sub_diag in Hs.
  replace (0 <=? days) with true in Hs by (symmetry; apply Z.leb_le; lia).
  cbn in Hs. unfold AddressBook.adjust_for_weekend in Hs.
  replace (5 <=? Date.weekday (today E)) with false in Hs
    by (symmetry; apply Z.leb_gt; lia).
  cbn in Hs. injection Hs as <-. apply elem_of_app. right.
  apply list_elem_of_singleton. reflexivity.
Qed.

Lemma upcoming_birthdays_include_today_witness :
  Date.valid (today (scenario_env false))
  /\ Date.weekday (today (scenario_env false)) < 5
  /\ AddressBook.get_upcoming_birthdays (scenario_env false)
       (AddressBook.add_record (AddressBook.mk [])
          (mkRecord (str "Zoe") [] (Some (str "10.06.2000")))) 7
     = Ok [AddressBook.mkEntry (str "Zoe") (str "10.06.2024")]
  /\ AddressBook.mkEntry (str "Zoe") (str "10.06.2024")
     ∈ [AddressBook.mkEntry (str "Zoe") (str "10.06.2024")].
Proof.
  assert (Hv : Date.valid (today (scenario_env false)))
    by (vm_compute; intuition discriminate).
  split; [exact Hv|]. split; [vm_compute; reflexivity|].
  split; [reflexivity|].
  refine (upcoming_birthdays_include_today (scenario_env false)
            (AddressBook.add_record (AddressBook.mk [])
               (mkRecord (str "Zoe") [] (Some (str "10.06.2000"))))
            7 _ (mkRecord (str "Zoe") [] (Some (str "10.06.2000")))
            (str "10.06.2000") (mkdate 2000 6 10)
            Hv _ _ _ eq_refl eq_refl eq_refl eq_refl eq_refl).
  - vm_compute. reflexivity.
  - lia.
  - vm_compute. apply list_elem_of_here.
Defined.

(** X18: what [Birthday] stores is a text that [strptime] reads back as the
    same date and that [Birthday] accepts again unchanged (for the years
    from 1000 on, or with a C library that zero-fills the year). *)
Theorem Birthday_stores_canonical_text (E : env) (s v : pystr) (d : date) :
  Birthday E s = Ok v ->
  strptime s = Ok d ->
  libc_pads_year E = true \/ 1000 <= year d ->
  v = render d /\ strptime v = Ok d /\ Birthday E v = Ok v.
Proof.
  intros Hb Hp Hy. rewrite (Birthday_parsed E s d Hp) in Hb.
  destruct (Date.gtb d (today E)) eqn:Hg; [discriminate|].
  injection Hb as <-. rewrite strftime_render by exact Hy.
  pose proof (strptime_ok_valid s d Hp) as Hv.
  pose proof (strptime_date_text false d Hv) as Hr.
  rewrite <- render_text in Hr.
  split; [reflexivity|]. split; [exact Hr|].
  rewrite (Birthday_parsed E _ d Hr), Hg. now rewrite strftime_render.
Qed.

Lemma Birthday_stores_canonical_text_witness :
  Birthday (scenario_env false) (str "8.6.1990") = Ok (str "08.06.1990")
  /\ Birthday (scenario_env false) (str "08.06.1990")
     = Ok (str "08.06.1990").
Proof.
  split; [reflexivity|].
  refine (proj2 (proj2 (Birthday_stores_canonical_text (scenario_env false)
            (str "8.6.1990") (str "08.06.1990") (mkdate 1990 6 8)
            eq_refl eq_refl _))).
  right. cbn. lia.
Defined.

(** ** The command handlers *)

Lemma setitem_setitem {V} (k : pystr) (v1 v2 : V) (d : Dict.dict V) :
  Dict.setitem k v2 (Dict.setitem k v1 d) = Dict.setitem k v2 d.
Proof.
  induction d as [|[k' v'] d IH]; cbn [Dict.setitem].
  - now rewrite eqb_refl.
  - destruct (eqb k' k) eqn:Hk; cbn [Dict.setitem]; rewrite Hk;
      [reflexivity | now rewrite IH].
Qed.

Lemma add_phone_invalid (r : Record_) (phone : pystr) :
  Phone phone <> Ok phone ->
  add_phone phone r = (Raise (ValueError PhoneMustContain10Digits), r).
Proof.
  intros H. destruct (Phone_cases phone) as [Hc|Hc]; [contradiction|].
  unfold add_phone, mbind, method_bind, m_bind, lift. now rewrite Hc.
Qed.

Lemma book_eta (book : AddressBook.t) :
  AddressBook.mk (AddressBook.data book) = book.
Proof. now destruct book. Qed.

Lemma add_contact_run (book : AddressBook.t)
    (name0 phone : pystr) (more : list pystr) :
  Phone phone = Ok phone ->
  (AddressBook.find book name0 = None ->
   Handlers.add_contact (name0 :: phone :: more) book
   = (Handlers.Return (Handlers.Text (str "Contact added.")),
      AddressBook.add_record book (mkRecord name0 [phone] None)))
  /\ (forall record, AddressBook.find book name0 = Some record ->
      Handlers.add_contact (name0 :: phone :: more) book
      = (Handlers.Return (Handlers.Text (str "Contact updated.")),
         AddressBook.mk
           (Dict.setitem name0
              (mkRecord (name record) (phones record ++ [phone])
                 (birthday record))
              (AddressBook.data book)))).
Proof.
  intros Hok. unfold Handlers.add_contact, Handlers.input_error,
    Handlers.add_contact_func, Handlers.call_method. split.
  - intros Hnew. rewrite Hnew, add_phone_ok by exact Hok.
    unfold AddressBook.add_record, Record_init.
    cbn [AddressBook.data name phones birthday app].
    now rewrite setitem_setitem.
  - intros record Hold. rewrite Hold, add_phone_ok by exact Hok.
    reflexivity.
Qed.

(** X19: [add_contact] with a valid phone.  For a name the book does not
    hold it adds a contact with this one phone and answers "Contact
    added."; for a name it holds it appends the phone to the phones of the
    contact and answers "Contact updated.".  Arguments after the second are
    ignored. *)
Theorem add_contact_valid_phone (book : AddressBook.t)
    (name0 phone : pystr) (more : list pystr) :
  Phone phone = Ok phone ->
  (AddressBook.find book name0 = None ->
   Handlers.add_contact (name0 :: phone :: more) book
   = (Handlers.Return (Handlers.Text (str "Contact added.")),
      AddressBook.add_record book (mkRecord name0 [phone] None)))
  /\ (forall record, AddressBook.find book name0 = Some record ->
      Handlers.add_contact (name0 :: phone :: more) book
      = (Handlers.Return (Handlers.Text (str "Contact updated.")),
         AddressBook.mk
           (Dict.setitem name0
              (mkRecord (name record) (phones record ++ [phone])
                 (birthday record))
              (AddressBook.data book)))).
Proof. apply add_contact_run. Qed.

Lemma add_contact_valid_phone_witness :
  Phone (str "0670000000") = Ok (str "0670000000")
  /\ Handlers.add_contact [str "Bob"; str "0670000000"] ann_book
     = (Handlers.Return (Handlers.Text (str "Contact added.")),
        AddressBook.add_record ann_book
          (mkRecord (str "Bob") [str "0670000000"] None)).
Proof.
  split; [reflexivity|].
  exact (proj1 (add_contact_valid_phone ann_book (str "Bob")
                  (str "0670000000") [] eq_refl) eq_refl).
Defined.

Lemma add_contact_invalid_run (book : AddressBook.t)
    (name0 phone : pystr) (more : list pystr) :
  Phone phone <> Ok phone ->
  fst (Handlers.add_contact (name0 :: phone :: more) book)
  = Handlers.Return (Handlers.ErrorText PhoneMustContain10Digits)
  /\ (AddressBook.find book name0 = None ->
      snd (Handlers.add_contact (name0 :: phone :: more) book)
      = AddressBook.add_record book (Record_init name0))
  /\ (AddressBook.find book name0 <> None ->
      snd (Handlers.add_contact (name0 :: phone :: more) book) = book).
Proof.
  intros Hbad. unfold Handlers.add_contact, Handlers.input_error,
    Handlers.add_contact_func, Handlers.call_method.
  destruct (AddressBook.find book name0) as [record|] eqn:Hf;
    rewrite add_phone_invalid by exact Hbad; cbn [fst snd Handlers.of_exn].
  - split; [reflexivity|]. split; [discriminate|]. intros _.
    unfold AddressBook.find in Hf. rewrite setitem_same by exact Hf.
    apply book_eta.
  - split; [reflexivity|]. split; [|congruence]. intros _.
    unfold AddressBook.add_record, Record_init.
    cbn [AddressBook.data name]. now rewrite setitem_setitem.
Qed.

(** X20: [add_contact] with a phone that [Phone] refuses answers with the
    text of the phone error.  A contact the book holds is left as it was.
    For a name the book does not hold, the contact has been added before
    the phone is checked, and stays in the book without a phone. *)
Theorem add_contact_invalid_phone (book : AddressBook.t)
    (name0 phone : pystr) (more : list pystr) :
  Phone phone <> Ok phone ->
  fst (Handlers.add_contact (name0 :: phone :: more) book)
  = Handlers.Return (Handlers.ErrorText PhoneMustContain10Digits)
  /\ (AddressBook.find book name0 = None ->
      snd (Handlers.add_contact (name0 :: phone :: more) book)
      = AddressBook.add_record book (Record_init name0))
  /\ (AddressBook.find book name0 <> None ->
      snd (Handlers.add_contact (name0 :: phone :: more) book) = book).
Proof. apply add_contact_invalid_run. Qed.

Lemma add_contact_invalid_phone_witness :
  Phone (str "12345") <> Ok (str "12345")
  /\ AddressBook.find
       (snd (Handlers.add_contact [str "Bob"; str "12345"] ann_book))
       (str "Bob")
     = Some (Record_init (str "Bob")).
Proof.
  assert (Hbad : Phone (str "12345") <> Ok (str "12345")) by discriminate.
  split; [exact Hbad|].
  rewrite (proj1 (proj2 (add_contact_invalid_phone ann_book (str "Bob")
                           (str "12345") [] Hbad)) eq_refl).
  reflexivity.
Defined.

(** X21: after [add_contact] with a valid phone, [show_phone] for the name
    answers with the name and the phones the contact had before, followed
    by the new phone, and does not change the book. *)
Theorem add_contact_then_show_phone (book : AddressBook.t)
    (name0 phone : pystr) (more more' : list pystr) :
  Phone phone = Ok phone ->
  Handlers.show_phone (name0 :: more')
    (snd (Handlers.add_contact (name0 :: phone :: more) book))
  = (Handlers.Return
       (Handlers.Text
          (name0 ++ str ": "
           ++ join (str "; ")
                (match AddressBook.find book name0 with
                 | Some record => phones record
                 | None => []
                 end ++ [phone]))),
     snd (Handlers.add_contact (name0 :: phone :: more) book)).
Proof.
  intros Hok.
  destruct (add_contact_run book name0 phone more Hok) as [Hn Ho].
  unfold Handlers.show_phone, Handlers.input_error, Handlers.show_phone_func.
  destruct (AddressBook.find book name0) as [record|] eqn:Hf.
  - rewrite (Ho record eq_refl). cbn [snd].
    unfold AddressBook.find. cbn [AddressBook.data].
    now rewrite get_setitem_eq.
  - rewrite (Hn eq_refl). cbn [snd].
    unfold AddressBook.find, AddressBook.add_record.
    cbn [AddressBook.data name]. now rewrite get_setitem_eq.
Qed.

Lemma add_contact_then_show_phone_witness :
  Handlers.show_phone [str "Ann"]
    (snd (Handlers.add_contact [str "Ann"; str "0670000000"] ann_book))
  = (Handlers.Return
       (Handlers.Text (str "Ann: 0501234567; 0670000000")),
     snd (Handlers.add_contact [str "Ann"; str "0670000000"] ann_book)).
Proof.
  exact (add_contact_then_show_phone ann_book (str "Ann") (str "0670000000")
           [] [] eq_refl).
Defined.

Lemma edit_phone_raises (r : Record_) (old new : pystr) (e : exn)
    (r' : Record_) :
  edit_phone old new r = (Raise e, r') ->
  r' = r /\ exists m, e = ValueError m.
Proof.
  unfold edit_phone, mbind, method_bind, m_bind, lift, get_self.
  destruct (Phone_cases new) as [Hc|Hc]; rewrite Hc.
  - destruct (edit_phone_loop old new (phones r)); [discriminate|].
    unfold m_raise. intros [= <- <-]. eauto.
  - intros [= <- <-]. eauto.
Qed.

(** X22: [change_contact] changes the book only when it answers "Contact
    phone updated.": with fewer or more than three arguments, an unknown
    name, a new phone that [Phone] refuses or an old phone the contact does
    not have, the book is as it was; for an unknown name the answer is
    "Contact not found".  It never adds, removes or renames a contact. *)
Theorem change_contact_changes_on_success_only (book : AddressBook.t)
    (args : list pystr) :
  (fst (Handlers.change_contact args book)
   <> Handlers.Return (Handlers.Text (str "Contact phone updated.")) ->
   snd (Handlers.change_contact args book) = book)
  /\ Dict.keys (AddressBook.data (snd (Handlers.change_contact args book)))
     = Dict.keys (AddressBook.data book)
  /\ (forall name0 old new, args = [name0; old; new] ->
      AddressBook.find book name0 = None ->
      Handlers.change_contact args book
      = (Handlers.Return (Handlers.Text (str "Contact not found")), book))
  /\ (forall a b c d more, args = a :: b :: c :: d :: more ->
      Handlers.change_contact args book
      = (Handlers.Return (Handlers.TooManyValues 3), book)).
Proof.
  unfold Handlers.change_contact, Handlers.input_error,
    Handlers.change_contact_func, Handlers.call_method.
  split; [|split; [|split]].
  - destruct args as [|a [|b [|c [|d more]]]]; try reflexivity.
    destruct (AddressBook.find book a) as [record|] eqn:Hf; [|reflexivity].
    destruct (edit_phone b c record) as [[[]|e] record'] eqn:He.
    + cbn. congruence.
    + apply edit_phone_raises in He as [-> [m ->]]. cbn. intros _.
      unfold AddressBook.find in Hf. rewrite setitem_same by exact Hf.
      apply book_eta.
  - destruct args as [|a [|b [|c [|d more]]]]; try reflexivity.
    destruct (AddressBook.find book a) as [record|] eqn:Hf; [|reflexivity].
    assert (Hk : forall record',
              Dict.keys (Dict.setitem a record' (AddressBook.data book))
              = Dict.keys (AddressBook.data book)).
    { intros record'. eapply keys_setitem_present, Hf. }
    destruct (edit_phone b c record) as [[[]|e] record']; [apply Hk|].
    destruct e as [m|]; apply Hk.
  - intros name0 old new -> Hf. now rewrite Hf.
  - intros a b c d more ->. reflexivity.
Qed.

(** X23: [show_phone] and [show_birthday] never change the book; with no
    argument they answer "Not enough argument for the command", and
    [show_phone] answers "Contact not found" for a name the book does not
    hold. *)
Theorem show_handlers_read_only (book : AddressBook.t) :
  (forall args, snd (Handlers.show_phone args book) = book
                /\ snd (Handlers.show_birthday args book) = book)
  /\ fst (Handlers.show_phone [] book)
     = Handlers.Return
         (Handlers.Text (str "Not enough argument for the command"))
  /\ fst (Handlers.show_birthday [] book)
     = Handlers.Return
         (Handlers.Text (str "Not enough argument for the command"))
  /\ (forall name0 more, AddressBook.find book name0 = None ->
      fst (Handlers.show_phone (name0 :: more) book)
      = Handlers.Return (Handlers.Text (str "Contact not found"))).
Proof.
  unfold Handlers.show_phone, Handlers.show_birthday, Handlers.input_error,
    Handlers.show_phone_func, Handlers.show_birthday_func.
  split; [|split; [|split]]; try reflexivity.
  - intros [|name0 more]; [split; reflexivity|].
    destruct (AddressBook.find book name0) as [[n ps [v|]]|];
      split; reflexivity.
  - intros name0 more Hf. now rewrite Hf.
Qed.

Lemma add_birthday_run (E : env) (r : Record_) (b : pystr) :
  add_birthday E b r
  = match Birthday E b with
    | Ok v => (Ok tt, mkRecord (name r) (phones r) (Some v))
    | Raise e => (Raise e, r)
    end.
Proof.
  unfold add_birthday, mbind, method_bind, m_bind, lift.
  now destruct (Birthday E b).
Qed.

(** X24: when [Birthday] accepts the date, the handler [add_birthday] for a
    contact of the book answers "Birthday added.", keeps the name and the
    phones of the contact, and [show_birthday] then answers with the name
    and the stored text of the date. *)
Theorem add_birthday_then_show_birthday (E : env) (book : AddressBook.t)
    (name0 b v : pystr) (record : Record_) (more : list pystr) :
  AddressBook.find book name0 = Some record ->
  Birthday E b = Ok v ->
  Handlers.add_birthday E [name0; b] book
  = (Handlers.Return (Handlers.Text (str "Birthday added.")),
     AddressBook.mk
       (Dict.setitem name0 (mkRecord (name record) (phones record) (Some v))
          (AddressBook.data book)))
  /\ fst (Handlers.show_birthday (name0 :: more)
            (snd (Handlers.add_birthday E [name0; b] book)))
     = Handlers.Return (Handlers.Text (name0 ++ str "'s birthday: " ++ v)).
Proof.
  intros Hf Hb.
  assert (Hrun : Handlers.add_birthday E [name0; b] book
    = (Handlers.Return (Handlers.Text (str "Birthday added.")),
       AddressBook.mk
         (Dict.setitem name0 (mkRecord (name record) (phones record) (Some v))
            (AddressBook.data book)))).
  { unfold Handlers.add_birthday, Handlers.input_error,
      Handlers.add_birthday_func, Handlers.call_method.
    now rewrite Hf, add_birthday_run, Hb. }
  split; [exact Hrun|]. rewrite Hrun. cbn [snd].
  unfold Handlers.show_birthday, Handlers.input_error,
    Handlers.show_birthday_func, AddressBook.find.
  cbn [AddressBook.data]. now rewrite get_setitem_eq.
Qed.

Lemma add_birthday_then_show_birthday_witness :
  AddressBook.find ann_book (str "Ann") = Some ann_old
  /\ Birthday (scenario_env false) (str "1.2.2000") = Ok (str "01.02.2000")
  /\ fst (Handlers.show_birthday [str "Ann"]
            (snd (Handlers.add_birthday (scenario_env false)
                    [str "Ann"; str "1.2.2000"] ann_book)))
     = Handlers.Return (Handlers.Text (str "Ann's birthday: 01.02.2000")).
Proof.
  split; [reflexivity|]. split; [reflexivity|].
  exact (proj2 (add_birthday_then_show_birthday (scenario_env false) ann_book
                  (str "Ann") (str "1.2.2000") (str "01.02.2000") ann_old []
                  eq_refl eq_refl)).
Defined.

Lemma Birthday_raises (E : env) (b : pystr) (e : exn) :
  Birthday E b = Raise e -> exists m, e = ValueError m.
Proof.
  unfold Birthday, Birthday_try.
  destruct (strptime b) as [d|e0] eqn:Hp; cbn.
  - destruct (Date.gtb d (today E)); [|discriminate].
    intros [= <-]. eauto.
  - destruct (strptime_raises_ValueError b e0 Hp) as [m ->].
    intros [= <-]. eauto.
Qed.

Lemma adjust_for_weekend_raises (d : date) (e : exn) :
  Date.valid d -> AddressBook.adjust_for_weekend d <> Raise e.
Proof.
  intros Hv H. destruct (adjust_for_weekend_total d Hv) as [r Hr].
  congruence.
Qed.

Lemma new_raises (y m d : Z) (e : exn) :
  Date.new y m d = Raise e -> exists msg, e = ValueError msg.
Proof.
  unfold Date.new.
  repeat (destruct (negb _); [intros [= <-]; eauto|]). discriminate.
Qed.

Lemma upcoming_step_raises (E : env) (days : Z)
    (acc : list AddressBook.entry) (r : Record_) (e : exn) :
  AddressBook.upcoming_step E days acc r = Raise e ->
  exists m, e = ValueError m.
Proof.
  unfold AddressBook.upcoming_step.
  destruct (birthday r) as [v|]; [|discriminate].
  destruct (strptime v) as [b|e0] eqn:Hp; cbn;
    [|intros [= <-]; eapply strptime_raises_ValueError, Hp].
  destruct (Date.replace_year b (year (today E))) as [b1|e1] eqn:H1; cbn;
    [|intros [= <-]; eapply new_raises, H1].
  assert (Hv1 : Date.valid b1).
  { unfold Date.replace_year in H1. now apply new_ok_valid in H1. }
  destruct (if Date.ltb b1 (today E)
            then Date.replace_year b1 (year (today E) + 1)
            else Ok b1) as [b2|e2] eqn:H2; cbn.
  - assert (Hv2 : Date.valid b2).
    { destruct (Date.ltb b1 (today E)).
      - unfold Date.replace_year in H2. now apply new_ok_valid in H2.
      - now injection H2 as <-. }
    destruct ((0 <=? Date.sub_days b2 (today E))
              && (Date.sub_days b2 (today E) <=? days)); [|discriminate].
    destruct (AddressBook.adjust_for_weekend b2) as [c|e3] eqn:Ha; cbn;
      [discriminate|].
    exfalso. now apply (adjust_for_weekend_raises b2 e3 Hv2).
  - intros [= <-]. destruct (Date.ltb b1 (today E)); [|discriminate].
    eapply new_raises, H2.
Qed.

Lemma get_upcoming_birthdays_raises (E : env) (book : AddressBook.t)
    (days : Z) (e : exn) :
  AddressBook.get_upcoming_birthdays E book days = Raise e ->
  exists m, e = ValueError m.
Proof.
  unfold AddressBook.get_upcoming_birthdays.
  generalize (@nil AddressBook.entry) as acc.
  generalize (Dict.values (AddressBook.data book)) as records.
  induction records as [|r records IH]; intros acc;
    cbn [AddressBook.upcoming_loop]; [discriminate|].
  destruct (AddressBook.upcoming_step E days acc r) as [acc'|e0] eqn:Hs; cbn.
  - apply IH.
  - intros [= <-]. eapply upcoming_step_raises, Hs.
Qed.

(** X25: no handler lets an exception out: whatever the arguments, the
    book and the date, each of them returns a string.  The only exceptions
    raised under them are [ValueError], [KeyError] and [IndexError], which
    [input_error] turns into strings; in particular the query under
    [birthdays] never raises [OverflowError]. *)
Theorem handlers_always_answer (E : env) (book : AddressBook.t)
    (args : list pystr) :
  (exists r, fst (Handlers.add_contact args book) = Handlers.Return r)
  /\ (exists r, fst (Handlers.change_contact args book) = Handlers.Return r)
  /\ (exists r, fst (Handlers.show_phone args book) = Handlers.Return r)
  /\ (exists r, fst (Handlers.add_birthday E args book) = Handlers.Return r)
  /\ (exists r, fst (Handlers.show_birthday args book) = Handlers.Return r)
  /\ (exists r, fst (Handlers.birthdays E book) = Handlers.Return r).
Proof.
  repeat split.
  - destruct args as [|a [|b more]]; [eexists; reflexivity..|].
    destruct (Phone_cases b) as [Hc|Hc].
    + destruct (add_contact_run book a b more Hc) as [Hn Ho].
      destruct (AddressBook.find book a) as [record|] eqn:Hf.
      * rewrite (Ho record eq_refl). eauto.
      * rewrite (Hn eq_refl). eauto.
    + assert (Hbad : Phone b <> Ok b) by congruence.
      rewrite (proj1 (add_contact_invalid_run book a b more Hbad)). eauto.
  - unfold Handlers.change_contact, Handlers.input_error,
      Handlers.change_contact_func, Handlers.call_method.
    destruct args as [|a [|b [|c [|d more]]]]; cbn; eauto.
    destruct (AddressBook.find book a) as [record|]; cbn; eauto.
    destruct (edit_phone b c record) as [[[]|e] record'] eqn:He; cbn; eauto.
    apply edit_phone_raises in He as [_ [m ->]]. cbn. eauto.
  - unfold Handlers.show_phone, Handlers.input_error,
      Handlers.show_phone_func.
    destruct args as [|a more]; cbn; eauto.
    destruct (AddressBook.find book a); cbn; eauto.
  - unfold Handlers.add_birthday, Handlers.input_error,
      Handlers.add_birthday_func, Handlers.call_method.
    destruct args as [|a [|b [|c more]]]; cbn; eauto.
    destruct (AddressBook.find book a) as [record|]; cbn; eauto.
    rewrite add_birthday_run.
    destruct (Birthday E b) as [v|e] eqn:Hb; cbn; eauto.
    apply Birthday_raises in Hb as [m ->]. cbn. eauto.
  - unfold Handlers.show_birthday, Handlers.input_error,
      Handlers.show_birthday_func.
    destruct args as [|a more]; cbn; eauto.
    destruct (AddressBook.find book a) as [[n ps [v|]]|]; cbn; eauto.
  - unfold Handlers.birthdays, Handlers.input_error, Handlers.birthdays_func.
    destruct (AddressBook.get_upcoming_birthdays E book 7) as [l|e] eqn:Hq;
      cbn; eauto.
    apply get_upcoming_birthdays_raises in Hq as [m ->]. cbn. eauto.
Qed.

(** X26: [add_contact] never removes a contact and never touches the
    contact of another name: the names the book had stay first, in their
    order, and every name other than its first argument keeps its record. *)
Theorem add_contact_keeps_other_contacts (book : AddressBook.t)
    (args : list pystr) :
  Dict.keys (AddressBook.data book)
  `prefix_of`
  Dict.keys (AddressBook.data (snd (Handlers.add_contact args book)))
  /\ forall other, head args <> Some other ->
       AddressBook.find (snd (Handlers.add_contact args book)) other
       = AddressBook.find book other.
Proof.
  destruct args as [|a [|b more]];
    [split; [reflexivity | intros; reflexivity]..|].
  assert (Hbook : exists record,
    snd (Handlers.add_contact (a :: b :: more) book)
    = AddressBook.mk (Dict.setitem a record (AddressBook.data book))).
  { destruct (Phone_cases b) as [Hc|Hc].
    - destruct (add_contact_run book a b more Hc) as [Hn Ho].
      destruct (AddressBook.find book a) as [record|] eqn:Hf.
      + rewrite (Ho record eq_refl). eauto.
      + rewrite (Hn eq_refl). eauto.
    - assert (Hbad : Phone b <> Ok b) by congruence.
      destruct (add_contact_invalid_run book a b more Hbad) as (_ & Hn & Ho).
      destruct (AddressBook.find book a) as [record|] eqn:Hf.
      + rewrite Ho by discriminate. exists record.
        unfold AddressBook.find in Hf. rewrite setitem_same by exact Hf.
        now rewrite book_eta.
      + rewrite (Hn eq_refl). eauto. }
  destruct Hbook as [record ->]. cbn [AddressBook.data]. split.
  - rewrite keys_setitem. destruct (Dict.get a (AddressBook.data book));
      [reflexivity | now apply prefix_app_r].
  - intros other Hne. unfold AddressBook.find. cbn [AddressBook.data].
    apply get_setitem_ne. cbn in Hne. congruence.
Qed.

(** ** The texts that [strptime] reads *)

Lemma matches_sound (r : regex) (s m rest : pystr) :
  (m, rest) ∈ matches r s ->
  s = m ++ rest
  /\ (regex_min r <= length m <= regex_max r)%nat
  /\ forall c, regex_avoids c r = true -> c ∉ m.
Proof.
  revert s m rest. induction r as [c0|lo hi| |r1 IH1 r2 IH2|r1 IH1 r2 IH2];
    intros s m rest; cbn [matches regex_min regex_max regex_avoids].
  - destruct s as [|x s]; [intros H; now apply elem_of_nil in H|].
    destruct (x =? c0) eqn:Hx; [|intros H; now apply elem_of_nil in H].
    intros H. apply list_elem_of_singleton in H. injection H as -> ->.
    apply Z.eqb_eq in Hx. subst x.
    split; [reflexivity|]. split; [cbn; lia|].
    intros c Hc. rewrite list_elem_of_singleton. intros ->.
    now rewrite Z.eqb_refl in Hc.
  - destruct s as [|x s]; [intros H; now apply elem_of_nil in H|].
    destruct ((lo <=? x) && (x <=? hi)) eqn:Hx;
      [|intros H; now apply elem_of_nil in H].
    intros H. apply list_elem_of_singleton in H. injection H as -> ->.
    split; [reflexivity|]. split; [cbn; lia|].
    intros c Hc. rewrite list_elem_of_singleton. intros ->.
    now rewrite Hx in Hc.
  - destruct s as [|x s]; [intros H; now apply elem_of_nil in H|].
    destruct (isdecimal_char x) eqn:Hx;
      [|intros H; now apply elem_of_nil in H].
    intros H. apply list_elem_of_singleton in H. injection H as -> ->.
    split; [reflexivity|]. split; [cbn; lia|].
    intros c Hc. rewrite list_elem_of_singleton. intros ->.
    now rewrite Hx in Hc.
  - intros H. apply list_elem_of_In, in_flat_map in H as ([m1 s1] & H1 & H).
    apply in_map_iff in H as ([m2 s2] & Heq & H2). cbn [fst snd] in *.
    injection Heq as <- <-.
    apply list_elem_of_In, IH1 in H1 as (-> & Hl1 & Ha1).
    apply list_elem_of_In, IH2 in H2 as (-> & Hl2 & Ha2).
    split; [now rewrite app_assoc|]. split; [rewrite length_app; lia|].
    intros c Hc. apply andb_true_iff in Hc as [Hc1 Hc2].
    rewrite elem_of_app. intros [H|H]; [now apply (Ha1 c) | now apply (Ha2 c)].
  - intros H. apply elem_of_app in H as [H|H].
    + apply IH1 in H as (-> & Hl & Ha). split; [reflexivity|].
      split; [lia|]. intros c Hc. apply andb_true_iff in Hc as [Hc _]. auto.
    + apply IH2 in H as (-> & Hl & Ha). split; [reflexivity|].
      split; [lia|]. intros c Hc. apply andb_true_iff in Hc as [_ Hc]. auto.
Qed.

Lemma matches_lit (c : Z) (s m rest : pystr) :
  (m, rest) ∈ matches (Lit c) s -> m = [c] /\ s = c :: rest.
Proof.
  cbn [matches]. destruct s as [|x s]; [intros H; now apply elem_of_nil in H|].
  destruct (x =? c) eqn:Hx; [|intros H; now apply elem_of_nil in H].
  intros H. apply list_elem_of_singleton in H. injection H as -> ->.
  apply Z.eqb_eq in Hx. now subst x.
Qed.

Lemma format_matches_sound (s dt mt yt rest : pystr) :
  (dt, mt, yt, rest) ∈ format_matches s ->
  s = dt ++ [46] ++ mt ++ [46] ++ yt ++ rest
  /\ (1 <= length dt <= 2)%nat /\ (1 <= length mt <= 2)%nat
  /\ length yt = 4%nat
  /\ (46 ∉ dt) /\ (46 ∉ mt).
Proof.
  unfold format_matches. intros H.
  apply list_elem_of_In, in_flat_map in H as ([d0 s0] & Hd & H).
  apply in_flat_map in H as ([x1 s1] & Hx1 & H).
  apply in_flat_map in H as ([m0 s2] & Hm & H).
  apply in_flat_map in H as ([x2 s3] & Hx2 & H).
  apply in_map_iff in H as ([y0 s4] & Heq & Hy).
  cbn [fst snd] in *. injection Heq as <- <- <- <-.
  apply list_elem_of_In, matches_sound in Hd as (Es & Hld & Had).
  apply list_elem_of_In, matches_lit in Hx1 as (_ & E0).
  apply list_elem_of_In, matches_sound in Hm as (E1 & Hlm & Ham).
  apply list_elem_of_In, matches_lit in Hx2 as (_ & E2).
  apply list_elem_of_In, matches_sound in Hy as (E3 & Hly & _).
  subst s s0 s1 s2 s3.
  split; [reflexivity|].
  split; [exact Hld|]. split; [exact Hlm|]. split; [cbn in Hly; lia|].
  split; [now apply Had | now apply Ham].
Qed.

Lemma strptime_ok_match (s : pystr) (d : date) :
  strptime s = Ok d ->
  exists dt mt yt, (dt, mt, yt, []) ∈ format_matches s.
Proof.
  unfold strptime.
  destruct (format_matches s) as [|[[[dt mt] yt] rest] tl]; [discriminate|].
  destruct rest; [|discriminate]. intros _. exists dt, mt, yt. left.
Qed.

(** X27: every text that [strptime] reads as a date is a day of one or two
    characters, a dot, a month of one or two characters, a dot and a year of
    exactly four characters, with nothing before or after: 8 to 10
    characters in all. *)
Theorem strptime_reads_only_day_month_year (s : pystr) (d : date) :
  strptime s = Ok d ->
  exists dt mt yt,
    s = dt ++ [46] ++ mt ++ [46] ++ yt
    /\ (1 <= length dt <= 2)%nat /\ (1 <= length mt <= 2)%nat
    /\ length yt = 4%nat
    /\ (8 <= length s <= 10)%nat.
Proof.
  intros H. destruct (strptime_ok_match s d H) as (dt & mt & yt & Hm).
  apply format_matches_sound in Hm as (Hs & Hd & Hmt & Hy & _).
  rewrite app_nil_r in Hs. exists dt, mt, yt.
  split; [exact Hs|]. split; [exact Hd|]. split; [exact Hmt|].
  split; [exact Hy|]. rewrite Hs, !length_app. cbn [length]. lia.
Qed.

Lemma strptime_reads_only_day_month_year_witness :
  exists dt mt yt,
    str "8.06.1990" = dt ++ [46] ++ mt ++ [46] ++ yt
    /\ (1 <= length dt <= 2)%nat /\ (1 <= length mt <= 2)%nat
    /\ length yt = 4%nat
    /\ (8 <= length (str "8.06.1990") <= 10)%nat.
Proof.
  exact (strptime_reads_only_day_month_year (str "8.06.1990")
           (mkdate 1990 6 8) eq_refl).
Defined.

Lemma zero_padded_chars (w : nat) (n c : Z) :
  c ∈ zero_padded w n -> 48 <= c <= 57.
Proof.
  revert n. induction w as [|w IH]; intros n; cbn [zero_padded].
  - intros H. now apply elem_of_nil in H.
  - rewrite elem_of_app, list_elem_of_singleton. intros [H| ->].
    + now apply (IH (n / 10)).
    + pose proof (digit_of_mod n). lia.
Qed.

Lemma split_at_first (c : Z) (a a' b b' : pystr) :
  c ∉ a -> c ∉ a' -> a ++ c :: b = a' ++ c :: b' -> a = a' /\ b = b'.
Proof.
  revert a'. induction a as [|x a IH]; intros [|x' a'] Ha Ha' H; cbn in H.
  - now injection H.
  - injection H as <- _. exfalso. apply Ha'. left.
  - injection H as -> _. exfalso. apply Ha. left.
  - injection H as <- H. apply not_elem_of_cons in Ha as [_ Ha].
    apply not_elem_of_cons in Ha' as [_ Ha'].
    destruct (IH a' Ha Ha' H) as [-> ->]. auto.
Qed.

Lemma strptime_short_year (d : date) :
  year d < 1000 -> exists e, strptime (strftime false d) = Raise e.
Proof.
  intros Hy. destruct (strptime (strftime false d)) as [d'|e] eqn:Hp;
    [exfalso|eauto].
  destruct (strptime_ok_match _ d' Hp) as (dt & mt & yt & Hm).
  apply format_matches_sound in Hm as (Hs & _ & _ & Hly & Hdt & Hmt).
  rewrite app_nil_r in Hs. unfold strftime, strftime_Y in Hs.
  change (chr ".") with 46 in Hs. cbn [app] in Hs.
  assert (Hz : forall w n, 46 ∉ zero_padded w n).
  { intros w n H. apply zero_padded_chars in H. lia. }
  apply split_at_first in Hs as [_ Hs]; [|apply Hz|exact Hdt].
  apply split_at_first in Hs as [_ Hs]; [|apply Hz|exact Hmt].
  apply (f_equal (@length Z)) in Hs.
  rewrite length_zero_padded, Hly in Hs. unfold digits_count in Hs.
  destruct (year d <? 10); [discriminate|].
  destruct (year d <? 100); [discriminate|].
  destruct (year d <? 1000) eqn:H3; [discriminate|].
  apply Z.ltb_ge in H3. lia.
Qed.

(** X28: with a C library that does not zero-fill the year ([%Y] of year
    999 is ["999"]), [Birthday] accepts the date of a year before 1000 and
    stores a text that [strptime] does not read; from then on the query
    raises for every book that holds a record with this birthday. *)
Theorem short_year_birthday_breaks_query (E : env) (d : date) :
  libc_pads_year E = false ->
  Date.valid d -> year d < 1000 -> Date.gtb d (today E) = false ->
  exists v,
    Birthday E (render d) = Ok v
    /\ (exists e, strptime v = Raise e)
    /\ forall book days r,
         r ∈ Dict.values (AddressBook.data book) -> birthday r = Some v ->
         exists e, AddressBook.get_upcoming_birthdays E book days = Raise e.
Proof.
  intros Hpad Hv Hy Hg.
  pose proof (strptime_date_text false d Hv) as Hp.
  rewrite <- render_text in Hp.
  exists (strftime false d). split; [|split].
  - now rewrite (Birthday_parsed E _ d Hp), Hg, Hpad.
  - now apply strptime_short_year.
  - intros book days r Hin Hb.
    destruct (strptime_short_year d Hy) as [e He].
    unfold AddressBook.get_upcoming_birthdays.
    eapply upcoming_loop_raises; [exact Hin|]. intros acc.
    unfold AddressBook.upcoming_step. rewrite Hb, He. cbn. eauto.
Qed.

Lemma short_year_birthday_breaks_query_witness :
  Date.valid (mkdate 999 1 1)
  /\ exists v,
       Birthday (scenario_env false) (str "01.01.0999") = Ok v
       /\ exists e, strptime v = Raise e.
Proof.
  assert (Hv : Date.valid (mkdate 999 1 1))
    by (vm_compute; intuition discriminate).
  split; [exact Hv|].
  destruct (short_year_birthday_breaks_query (scenario_env false)
              (mkdate 999 1 1) eq_refl Hv ltac:(cbn; lia) eq_refl)
    as (v & H1 & H2 & _).
  exists v. split; [exact H1 | exact H2].
Defined.

(** ** Rendering the book *)

Lemma join_cons (sep p : pystr) (ps : list pystr) :
  exists t, join sep (p :: ps) = p ++ t.
Proof.
  destruct ps as [|q ps]; cbn [join].
  - exists []. now rewrite app_nil_r.
  - eauto.
Qed.

(** X29: [show_all] answers "AddressBook is empty" for the book without
    records and for no other book. *)
Theorem show_all_empty_only_when_empty (book : AddressBook.t) :
  Handlers.show_all book = str "AddressBook is empty"
  <-> AddressBook.data book = [].
Proof.
  unfold Handlers.show_all, AddressBook_str.
  destruct (AddressBook.data book) as [|[k r] d] eqn:Hd.
  - split; reflexivity.
  - split; [|discriminate]. unfold Dict.values. cbn [map snd].
    destruct (join_cons [10] (Record_str r) (map Record_str (map snd d)))
      as [t ->].
    unfold Record_str. discriminate.
Qed.
